(** * The Messaging (FCM) facade of react-native-firebase

    A shallow embedding of [src/modules/messaging/index.js].  Every method of
    the [Messaging] class becomes a computation over an explicit [World]
    (the shared event emitter's registry, the trace of native calls, the
    trace of callback invocations and the logger output) that completes
    either normally with a value or abruptly with a thrown value. *)

From Stdlib Require Import ZArith.
From stdpp Require Import base decidable option list strings gmap.

Local Open Scope string_scope.

(** ** JavaScript values *)

(** The values a caller can hand to the facade.  Numbers are integers
    here (no claim depends on fractions or NaN); a function is known by
    its identity only, which is what [removeListener] compares. *)
#[warnings="-register-all"]
Inductive JsValue : Type :=
| JsUndefined
| JsNull
| JsBoolean (b : bool)
| JsNumber (n : Z)
| JsString (s : string)
| JsFunction (f : nat)
| JsObject (fields : list (string * JsValue))
| JsArray (items : list JsValue)
| JsRemoteMessage (payload : JsValue)   (* an instance of RemoteMessage *)
| JsError (message : string)            (* new Error(message) *)
| JsTypeError (message : string)        (* raised by the engine itself *)
| JsPromiseRejected (reason : JsValue)  (* Promise.reject(reason) *)
| JsPromiseNative (handle : nat).       (* a promise made by the native bridge *)

(** [typeof value] *)
Definition typeof (value : JsValue) : string :=
  match value with
  | JsUndefined => "undefined"
  | JsBoolean _ => "boolean"
  | JsNumber _ => "number"
  | JsString _ => "string"
  | JsFunction _ => "function"
  | JsNull | JsObject _ | JsArray _ | JsRemoteMessage _
  | JsError _ | JsTypeError _ | JsPromiseRejected _ | JsPromiseNative _ => "object"
  end.

(** index.js:54-56 *)
Definition isUndefined (value : JsValue) : bool :=
  bool_decide (typeof value = "undefined").

(** index.js:58-60 *)
Definition isString (value : JsValue) : bool :=
  bool_decide (typeof value = "string").

(** [value instanceof RemoteMessage] *)
Definition instanceof_RemoteMessage (value : JsValue) : bool :=
  match value with JsRemoteMessage _ => true | _ => false end.

(** ToBoolean, as used by [||]. *)
Definition truthy (value : JsValue) : bool :=
  match value with
  | JsUndefined | JsNull => false
  | JsBoolean b => b
  | JsNumber n => negb (n =? 0)%Z
  | JsString s => negb (bool_decide (s = ""))
  | _ => true
  end.

(** [a || b] on values. *)
Definition js_or (a b : JsValue) : JsValue := if truthy a then a else b.

Fixpoint get_field (fields : list (string * JsValue)) (key : string) : JsValue :=
  match fields with
  | [] => JsUndefined
  | (k, v) :: rest => if bool_decide (k = key) then v else get_field rest key
  end.

(** [value.key] for a value that is neither [undefined] nor [null]: only
    plain objects carry members of their own in this model. *)
Definition get_prop (value : JsValue) (key : string) : JsValue :=
  match value with
  | JsObject fields => get_field fields key
  | _ => JsUndefined
  end.

(** Modelled from the spec: [isFunction] of utils/index.js, which is not
    among the sources; the spec speaks of "a unary callback". *)
Definition isFunction (item : JsValue) : bool :=
  bool_decide (typeof item = "function").

(** The identity of a function value. *)
Definition as_function (item : JsValue) : option nat :=
  match item with JsFunction f => Some f | _ => None end.

(** Modelled from the spec: [isObject] of utils/index.js, which is not
    among the sources; the spec speaks of "an object exposing a [next]
    callback", so [null] is not one. *)
Definition isObject (item : JsValue) : bool :=
  match item with
  | JsNull => false
  | _ => bool_decide (typeof item = "object")
  end.

(** ** Completions and the world *)

Inductive Completion (A : Type) : Type :=
| Normal (a : A)
| Abrupt (thrown : JsValue).
Arguments Normal {A} a.
Arguments Abrupt {A} thrown.

(** What the shared emitter holds: functions of callers, and the two
    closures the constructor creates. *)
Inductive Callable : Type :=
| UserFn (f : nat)
| MessageReceivedFanOut     (* index.js:82-84 *)
| TokenRefreshedFanOut.     (* index.js:91-93 *)

#[global] Instance Callable_eq_dec : EqDecision Callable.
Proof. solve_decision. Defined.

(** The methods of the native module the facade delegates to. *)
Inductive NativeCall : Type :=
| N_jsInitialised
| N_getToken (appName senderId : JsValue)
| N_deleteToken (appName senderId : JsValue)
| N_requestPermission
| N_hasPermission
| N_sendMessage (message : JsValue)
| N_subscribeToTopic (topic : JsValue)
| N_unsubscribeFromTopic (topic : JsValue).

Record World : Type := mkWorld {
  subscriptions : gmap string (list Callable);  (* SharedEventEmitter *)
  native_calls : list NativeCall;               (* oldest first *)
  invoked : list (nat * JsValue);               (* caller's function, argument *)
  logged : list string                          (* getLogger(this).info *)
}.

Definition Run (A : Type) : Type := World -> Completion A * World.

Definition ret {A} (a : A) : Run A := fun w => (Normal a, w).
Definition throw {A} (e : JsValue) : Run A := fun w => (Abrupt e, w).
Definition bind {A B} (k : A -> Run B) (m : Run A) : Run B :=
  fun w => match m w with
           | (Normal a, w') => k a w'
           | (Abrupt e, w') => (Abrupt e, w')
           end.
#[global] Instance Run_ret : MRet Run := @ret.
#[global] Instance Run_bind : MBind Run := @bind.
Definition try_catch {A} (body : Run A) (handler : JsValue -> Run A) : Run A :=
  fun w => match body w with
           | (Normal a, w') => (Normal a, w')
           | (Abrupt e, w') => handler e w'
           end.
Definition lift {A} (c : Completion A) : Run A := fun w => (c, w).

Definition log_info (line : string) : Run unit :=
  fun w => (Normal tt,
            mkWorld (subscriptions w) (native_calls w) (invoked w) (logged w ++ [line])%list).

(** ** The shared event emitter *)

Module SharedEventEmitter.

(** Modelled from the spec: the emitter of utils/events.js is not among
    the sources.  The spec describes it as "a mapping from public event
    name to an ordered set of callback handles", where removal takes out
    "exactly that callback" and "handlers are invoked in registration
    order". *)
Definition listeners_of (eventType : string) (subs : gmap string (list Callable))
  : list Callable :=
  default [] (subs !! eventType).

(** Modelled from the spec: registration into the channel's "ordered
    set" (the emitter is not among the sources): a listener already there
    is not added again, a new one goes last. *)
Definition add (eventType : string) (listener : Callable)
  (subs : gmap string (list Callable)) : gmap string (list Callable) :=
  if bool_decide (listener ∈ listeners_of eventType subs) then subs
  else <[eventType := (listeners_of eventType subs ++ [listener])%list]> subs.

(** Modelled from the spec: removal from the channel's set (the emitter
    is not among the sources) takes out "exactly that callback". *)
Definition remove (eventType : string) (listener : Callable)
  (subs : gmap string (list Callable)) : gmap string (list Callable) :=
  alter (filter (λ l, l ≠ listener)) eventType subs.

(** Modelled from the spec: [SharedEventEmitter.addListener] (not among
    the sources), "a simple add/remove set operation". *)
Definition addListener (eventType : string) (listener : Callable) : Run unit :=
  fun w => (Normal tt,
            mkWorld (add eventType listener (subscriptions w))
                    (native_calls w) (invoked w) (logged w)).

(** Modelled from the spec: [SharedEventEmitter.removeListener] (not
    among the sources), "a simple add/remove set operation". *)
Definition removeListener (eventType : string) (listener : Callable) : Run unit :=
  fun w => (Normal tt,
            mkWorld (remove eventType listener (subscriptions w))
                    (native_calls w) (invoked w) (logged w)).

(** Modelled from the spec: the fan-out of the emitter (not among the
    sources), "all registered listeners for a channel receive every event
    posted to that channel", "in registration order".  [None] when a
    call runs out of stack. *)
Fixpoint deliver (call : Callable -> World -> option World)
  (ls : list Callable) (w : World) : option World :=
  match ls with
  | [] => Some w
  | l :: rest =>
      match call l w with
      | Some w' => deliver call rest w'
      | None => None
      end
  end.

End SharedEventEmitter.

Import SharedEventEmitter.

(** Modelled from the spec: the constructor of RemoteMessage
    (RemoteMessage.js is not among the sources) makes "a value object
    wrapping a key/value payload". *)
Definition RemoteMessage_new (message : JsValue) : JsValue := JsRemoteMessage message.

(** A caller's function runs: the model records the call and nothing else. *)
Definition record_invocation (f : nat) (arg : JsValue) (w : World) : World :=
  mkWorld (subscriptions w) (native_calls w) (invoked w ++ [(f, arg)])%list (logged w).

(** The bridge is entered: the model records the call. *)
Definition record_native_call (c : NativeCall) (w : World) : World :=
  mkWorld (subscriptions w) (native_calls w ++ [c])%list (invoked w) (logged w).

(** Calling a listener: a caller's function, or one of the arrow
    functions of index.js:82-84 and index.js:91-93.  [emit_rec] is
    [SharedEventEmitter.emit] one stack frame further down. *)
Definition apply_listener (emit_rec : string -> JsValue -> World -> option World)
  (l : Callable) (arg : JsValue) (w : World) : option World :=
  match l with
  | UserFn f => Some (record_invocation f arg w)
  | MessageReceivedFanOut => emit_rec "onMessage" (RemoteMessage_new arg) w
  | TokenRefreshedFanOut => emit_rec "onTokenRefresh" arg w
  end.

(** Modelled from the spec: [SharedEventEmitter.emit(eventType, arg)]
    (not among the sources), with [fuel] stack frames left. *)
Fixpoint emit (fuel : nat) (eventType : string) (arg : JsValue) (w : World)
  : option World :=
  match fuel with
  | 0 => None
  | S fuel' =>
      deliver (fun l w' => apply_listener (emit fuel') l arg w')
              (listeners_of eventType (subscriptions w)) w
  end.

(** ** The Messaging class *)

Record App : Type := mkApp {
  app_name : JsValue;                      (* this.app.name *)
  app_messagingSenderId : JsValue          (* this.app.options.messagingSenderId *)
}.

(** What the disposer returned by a registration will remove. *)
Inductive Disposer : Type :=
| RemoveOnMessage (listener : Callable)
| RemoveOnTokenRefresh (listener : Callable).

Section Messaging.

(** The native module: what a call returns, or throws, given the calls
    made before it. *)
Variable native : list NativeCall -> NativeCall -> Completion JsValue.
(** [RemoteMessage.prototype.build] on the wrapped payload
    (RemoteMessage.js is not among the sources): it serialises or throws. *)
Variable build : JsValue -> Completion JsValue.
(** [INTERNALS.STRINGS.ERROR_UNSUPPORTED_MODULE_METHOD]
    (utils/internals.js is not among the sources). *)
Variable ERROR_UNSUPPORTED_MODULE_METHOD : string -> string -> string.
Variable app : App.
(** [Platform.OS] *)
Variable Platform_OS : string.

(** [getNativeModule(this).method(args)] *)
Definition call_native (c : NativeCall) : Run JsValue :=
  fun w => (native (native_calls w) c, record_native_call c w).

(** [remoteMessage.build()] *)
Definition RemoteMessage_build (remoteMessage : JsValue) : Run JsValue :=
  match remoteMessage with
  | JsRemoteMessage payload => lift (build payload)
  | _ => throw (JsTypeError "remoteMessage.build is not a function")
  end.

(** index.js:68-100 *)
Definition constructor : Run unit :=
  addListener "messaging_message_received" MessageReceivedFanOut ;;
  addListener "messaging_token_refreshed" TokenRefreshedFanOut ;;
  if bool_decide (Platform_OS = "ios")
  then call_native N_jsInitialised ;; ret tt
  else ret tt.

(** The parameter pattern [{ appName, senderId } = {}]. *)
Definition destructure_TokenOptions (options : JsValue)
  : Run (JsValue * JsValue) :=
  match options with
  | JsUndefined => ret (JsUndefined, JsUndefined)
  | JsNull => throw (JsTypeError "Cannot destructure 'null'")
  | _ => ret (get_prop options "appName", get_prop options "senderId")
  end.

(** index.js:106-123 *)
Definition getToken (options : JsValue) : Run JsValue :=
  '(appName, senderId) ← destructure_TokenOptions options;
  if negb (isUndefined appName) && negb (isString appName) then
    throw (JsError "firebase.messaging().getToken(*) 'projectId' expected a string.")
  else if negb (isUndefined senderId) && negb (isString senderId) then
    throw (JsError "firebase.messaging().getToken(*) 'senderId' expected a string.")
  else
    call_native (N_getToken (js_or appName (app_name app))
                            (js_or senderId (app_messagingSenderId app))).

(** index.js:125-142 *)
Definition deleteToken (options : JsValue) : Run JsValue :=
  '(appName, senderId) ← destructure_TokenOptions options;
  if negb (isUndefined appName) && negb (isString appName) then
    throw (JsError "firebase.messaging().deleteToken(*) 'projectId' expected a string.")
  else if negb (isUndefined senderId) && negb (isString senderId) then
    throw (JsError "firebase.messaging().deleteToken(*) 'senderId' expected a string.")
  else
    call_native (N_deleteToken (js_or appName (app_name app))
                               (js_or senderId (app_messagingSenderId app))).

(** The [if / else if / else throw] shared by index.js:145-155 and
    index.js:170-180; [listener] is the function value itself. *)
Definition resolve_listener (method : string) (nextOrObserver : JsValue)
  : Run Callable :=
  let listener :=
    if isFunction nextOrObserver then
      as_function nextOrObserver
    else if isObject nextOrObserver && isFunction (get_prop nextOrObserver "next") then
      as_function (get_prop nextOrObserver "next")
    else None in
  match listener with
  | Some f => ret (UserFn f)
  | None =>
      throw (JsError ("Messaging." +:+ method +:+
        " failed: First argument must be a function or observer object with a `next` function."))
  end.

(** index.js:144-165 *)
Definition onMessage (nextOrObserver : JsValue) : Run Disposer :=
  listener ← resolve_listener "onMessage" nextOrObserver;
  log_info "Creating onMessage listener" ;;
  addListener "onMessage" listener ;;
  ret (RemoveOnMessage listener).

(** index.js:167-189 *)
Definition onTokenRefresh (nextOrObserver : JsValue) : Run Disposer :=
  listener ← resolve_listener "onTokenRefresh" nextOrObserver;
  log_info "Creating onTokenRefresh listener" ;;
  addListener "onTokenRefresh" listener ;;
  ret (RemoveOnTokenRefresh listener).

(** The arrow functions returned at index.js:161-164 and 185-188. *)
Definition dispose (d : Disposer) : Run unit :=
  match d with
  | RemoveOnMessage listener =>
      log_info "Removing onMessage listener" ;;
      removeListener "onMessage" listener
  | RemoveOnTokenRefresh listener =>
      log_info "Removing onTokenRefresh listener" ;;
      removeListener "onTokenRefresh" listener
  end.

(** index.js:191-193 *)
Definition requestPermission : Run JsValue := call_native N_requestPermission.

(** index.js:198-200 *)
Definition hasPermission : Run JsValue := call_native N_hasPermission.

(** index.js:202-215 *)
Definition sendMessage (remoteMessage : JsValue) : Run JsValue :=
  if negb (instanceof_RemoteMessage remoteMessage) then
    ret (JsPromiseRejected (JsError
      ("Messaging:sendMessage expects a 'RemoteMessage' but got type "
         +:+ typeof remoteMessage)))
  else
    try_catch
      (built ← RemoteMessage_build remoteMessage;
       call_native (N_sendMessage built))
      (fun error => ret (JsPromiseRejected error)).

(** index.js:217-219 *)
Definition subscribeToTopic (topic : JsValue) : Run JsValue :=
  call_native (N_subscribeToTopic topic).

(** index.js:221-223 *)
Definition unsubscribeFromTopic (topic : JsValue) : Run JsValue :=
  call_native (N_unsubscribeFromTopic topic).

(** index.js:229-236; whatever is passed is ignored. *)
Definition setBackgroundMessageHandler (arguments : list JsValue) : Run JsValue :=
  throw (JsError (ERROR_UNSUPPORTED_MODULE_METHOD "messaging" "setBackgroundMessageHandler")).

(** index.js:238-245; whatever is passed is ignored. *)
Definition useServiceWorker (arguments : list JsValue) : Run JsValue :=
  throw (JsError (ERROR_UNSUPPORTED_MODULE_METHOD "messaging" "useServiceWorker")).

End Messaging.

(** ** Vocabulary of the specification *)

(** An argument of [getToken] / [deleteToken] that is neither [undefined]
    nor a string. *)
Definition not_undefined_nor_string (value : JsValue) : bool :=
  negb (isUndefined value) && negb (isString value).

(** The callback a handler argument stands for: the argument itself when
    it is a function, its [next] member when it is an object whose [next]
    member is a function, none otherwise. *)
Definition handler_callback (handler : JsValue) : option nat :=
  match handler with
  | JsFunction f => Some f
  | JsObject fields =>
      match get_field fields "next" with
      | JsFunction f => Some f
      | _ => None
      end
  | _ => None
  end.

(** The channel a disposer works on, and the listener it takes off. *)
Definition disposer_channel (d : Disposer) : string :=
  match d with
  | RemoveOnMessage _ => "onMessage"
  | RemoveOnTokenRefresh _ => "onTokenRefresh"
  end.

Definition disposer_listener (d : Disposer) : Callable :=
  match d with
  | RemoveOnMessage listener | RemoveOnTokenRefresh listener => listener
  end.

(** [needle] occurs in [text]. *)
Definition names (text needle : string) : Prop :=
  ∃ before after, text = before +:+ needle +:+ after.

(** The functions of callers among a channel's listeners, in order. *)
Definition user_functions (ls : list Callable) : list nat :=
  omap (λ l, match l with UserFn f => Some f | _ => None end) ls.

(** The world in which a caller's functions [fs] have each been called
    once with [arg], in order. *)
Definition invoke_all (fs : list nat) (arg : JsValue) (w : World) : World :=
  mkWorld (subscriptions w) (native_calls w)
          (invoked w ++ ((λ f, (f, arg)) <$> fs))%list (logged w).

Definition is_user_fn (l : Callable) : bool :=
  match l with UserFn _ => true | _ => false end.

(** What the constructor sets up and every method keeps: each native
    channel holds the constructor's closure and nothing else, and the
    public channels hold functions of callers only. *)
Definition facade_ready (w : World) : bool :=
  bool_decide (listeners_of "messaging_message_received" (subscriptions w)
               = [MessageReceivedFanOut])
  && bool_decide (listeners_of "messaging_token_refreshed" (subscriptions w)
                  = [TokenRefreshedFanOut])
  && forallb is_user_fn (listeners_of "onMessage" (subscriptions w))
  && forallb is_user_fn (listeners_of "onTokenRefresh" (subscriptions w)).

(** ** Histories of the facade *)

(** One call of a public method, or of a disposer a registration
    returned. *)
Inductive Call : Type :=
| CallGetToken (options : JsValue)
| CallDeleteToken (options : JsValue)
| CallOnMessage (nextOrObserver : JsValue)
| CallOnTokenRefresh (nextOrObserver : JsValue)
| CallDispose (d : Disposer)
| CallRequestPermission
| CallHasPermission
| CallSendMessage (remoteMessage : JsValue)
| CallSubscribeToTopic (topic : JsValue)
| CallUnsubscribeFromTopic (topic : JsValue)
| CallSetBackgroundMessageHandler (arguments : list JsValue)
| CallUseServiceWorker (arguments : list JsValue).

(** The calls that work on the emitter rather than on the bridge. *)
Definition is_registration (c : Call) : bool :=
  match c with
  | CallOnMessage _ | CallOnTokenRefresh _ | CallDispose _ => true
  | _ => false
  end.

(** No listener yet on any of the four channels the facade uses. *)
Definition channels_unused (w : World) : bool :=
  forallb (λ eventType, bool_decide (listeners_of eventType (subscriptions w) = []))
    ["messaging_message_received"; "messaging_token_refreshed";
     "onMessage"; "onTokenRefresh"].

(** A value the facade may pass on as [appName] or [senderId]: the
    application's own default, or a non-empty string. *)
Definition forwarded_ok (value default : JsValue) : Prop :=
  value = default ∨ ∃ s, value = JsString s ∧ s ≠ "".

Section Histories.

Variable native : list NativeCall -> NativeCall -> Completion JsValue.
Variable build : JsValue -> Completion JsValue.
Variable ERROR_UNSUPPORTED_MODULE_METHOD : string -> string -> string.
Variable app : App.

(** The world a call leaves behind, however it completes. *)
Definition after_call (c : Call) (w : World) : World :=
  match c with
  | CallGetToken options => (getToken native app options w).2
  | CallDeleteToken options => (deleteToken native app options w).2
  | CallOnMessage nextOrObserver => (onMessage nextOrObserver w).2
  | CallOnTokenRefresh nextOrObserver => (onTokenRefresh nextOrObserver w).2
  | CallDispose d => (dispose d w).2
  | CallRequestPermission => (requestPermission native w).2
  | CallHasPermission => (hasPermission native w).2
  | CallSendMessage remoteMessage => (sendMessage native build remoteMessage w).2
  | CallSubscribeToTopic topic => (subscribeToTopic native topic w).2
  | CallUnsubscribeFromTopic topic => (unsubscribeFromTopic native topic w).2
  | CallSetBackgroundMessageHandler arguments =>
      (setBackgroundMessageHandler ERROR_UNSUPPORTED_MODULE_METHOD arguments w).2
  | CallUseServiceWorker arguments =>
      (useServiceWorker ERROR_UNSUPPORTED_MODULE_METHOD arguments w).2
  end.

(** The worlds a program can bring about: it constructs the facade on an
    emitter whose four channels are unused, then calls methods and
    disposers, while events arrive and are delivered. *)
Inductive reachable : World -> Prop :=
| reach_constructed (Platform_OS : string) (w : World) :
    channels_unused w = true ->
    reachable (constructor native Platform_OS w).2
| reach_call (c : Call) (w : World) :
    reachable w -> reachable (after_call c w)
| reach_event (fuel : nat) (eventType : string) (arg : JsValue) (w w' : World) :
    reachable w -> emit fuel eventType arg w = Some w' -> reachable w'.

End Histories.

(** ** Concrete environments, for the examples *)

Definition fresh_world : World := mkWorld ∅ [] [] [].

Definition demo_app : App := mkApp (JsString "[DEFAULT]") (JsString "305229645282").

(** A bridge that answers every call with a promise. *)
Definition promising_native (history : list NativeCall) (c : NativeCall)
  : Completion JsValue :=
  Normal (JsPromiseNative (length history)).

(** A bridge whose methods throw when called. *)
Definition throwing_native (history : list NativeCall) (c : NativeCall)
  : Completion JsValue :=
  Abrupt (JsError "native module method threw").

(** A serialiser that insists on a recipient, and one that always works. *)
Definition strict_build (payload : JsValue) : Completion JsValue :=
  match get_prop payload "to" with
  | JsString _ => Normal payload
  | _ => Abrupt (JsError "RemoteMessage: Missing required `to` property")
  end.

Definition demo_unsupported_message (namespace method : string) : string :=
  "firebase." +:+ namespace +:+ "()." +:+ method +:+ "() is unsupported by the native Firebase SDKs.".

(** The facade right after construction on Android, then with the
    callers' functions 1 and 2 listening for messages. *)
Definition constructed_world : World :=
  (constructor promising_native "android" fresh_world).2.

Definition two_listeners_world : World :=
  (onMessage (JsObject [("next", JsFunction 2)])
     (onMessage (JsFunction 1) constructed_world).2).2.

(** The facade with only the function 3 listening for token refreshes. *)
Definition token_listener_world : World :=
  (onTokenRefresh (JsFunction 3) constructed_world).2.

(** A concrete function is not among a concrete channel's listeners. *)
Ltac not_listening :=
  let Hin := fresh "Hin" in
  intros Hin; apply list_elem_of_In in Hin; vm_compute in Hin;
  intuition discriminate.

(** ** Properties *)

Lemma isFunction_as_function (item : JsValue) :
  isFunction item = true ↔ ∃ f, item = JsFunction f.
Proof.
  split.
  - destruct item; cbn; try discriminate. eauto.
  - intros [f ->]. reflexivity.
Qed.

Lemma handler_callback_resolve (v : JsValue) :
  (if isFunction v then as_function v
   else if isObject v && isFunction (get_prop v "next")
        then as_function (get_prop v "next")
        else None) = handler_callback v.
Proof.
  destruct v; try reflexivity.
  cbn [isFunction typeof bool_decide handler_callback get_prop isObject].
  change (bool_decide ("object" = "function")) with false.
  change (bool_decide ("object" = "object")) with true.
  cbn [andb].
  destruct (get_field fields "next"); reflexivity.
Qed.

(** *** The emitter's registry *)

Lemma listeners_of_add_same (eventType : string) (l : Callable)
  (subs : gmap string (list Callable)) :
  listeners_of eventType (add eventType l subs) =
    if bool_decide (l ∈ listeners_of eventType subs)
    then listeners_of eventType subs
    else (listeners_of eventType subs ++ [l])%list.
Proof.
  unfold add. case_bool_decide; [reflexivity|].
  unfold listeners_of at 1. rewrite lookup_insert_eq. reflexivity.
Qed.

Lemma listeners_of_add_other (eventType other : string) (l : Callable)
  (subs : gmap string (list Callable)) :
  eventType ≠ other →
  listeners_of other (add eventType l subs) = listeners_of other subs.
Proof.
  intros Hne. unfold add. case_bool_decide; [reflexivity|].
  unfold listeners_of at 1 3. rewrite lookup_insert_ne by exact Hne. reflexivity.
Qed.

Lemma elem_of_listeners_add (eventType : string) (l : Callable)
  (subs : gmap string (list Callable)) :
  l ∈ listeners_of eventType (add eventType l subs).
Proof.
  rewrite listeners_of_add_same. case_bool_decide; [assumption|].
  apply elem_of_app. right. apply list_elem_of_singleton. reflexivity.
Qed.

Lemma listeners_of_remove_same (eventType : string) (l : Callable)
  (subs : gmap string (list Callable)) :
  listeners_of eventType (remove eventType l subs) =
    filter (λ x, x ≠ l) (listeners_of eventType subs).
Proof.
  unfold remove, listeners_of. rewrite lookup_alter_eq.
  destruct (subs !! eventType); reflexivity.
Qed.

Lemma listeners_of_remove_other (eventType other : string) (l : Callable)
  (subs : gmap string (list Callable)) :
  eventType ≠ other →
  listeners_of other (remove eventType l subs) = listeners_of other subs.
Proof.
  intros Hne. unfold remove, listeners_of.
  rewrite lookup_alter_ne by exact Hne. reflexivity.
Qed.

(** *** Delivery *)

Lemma invoke_all_nil (arg : JsValue) (w : World) : invoke_all [] arg w = w.
Proof.
  destruct w. unfold invoke_all. cbn. rewrite app_nil_r. reflexivity.
Qed.

Lemma invoke_all_cons (f : nat) (fs : list nat) (arg : JsValue) (w : World) :
  invoke_all fs arg (record_invocation f arg w) = invoke_all (f :: fs) arg w.
Proof.
  unfold invoke_all, record_invocation. cbn. rewrite <- app_assoc. reflexivity.
Qed.

Lemma deliver_to_user_functions
  (emit_rec : string → JsValue → World → option World)
  (arg : JsValue) (ls : list Callable) (w : World) :
  forallb is_user_fn ls = true →
  deliver (λ l w', apply_listener emit_rec l arg w') ls w
    = Some (invoke_all (user_functions ls) arg w).
Proof.
  revert w. induction ls as [|l rest IH]; intros w Hall.
  - cbn. rewrite invoke_all_nil. reflexivity.
  - cbn in Hall. apply andb_true_iff in Hall as [Hl Hrest].
    destruct l as [f| |]; try discriminate.
    cbn. rewrite IH by exact Hrest. rewrite invoke_all_cons. reflexivity.
Qed.

Lemma emit_S (fuel : nat) (eventType : string) (arg : JsValue) (w : World) :
  emit (S fuel) eventType arg w
    = deliver (λ l w', apply_listener (emit fuel) l arg w')
              (listeners_of eventType (subscriptions w)) w.
Proof. reflexivity. Qed.

Lemma emit_public (fuel : nat) (eventType : string) (arg : JsValue) (w : World) :
  forallb is_user_fn (listeners_of eventType (subscriptions w)) = true →
  emit (S fuel) eventType arg w
    = Some (invoke_all (user_functions (listeners_of eventType (subscriptions w))) arg w).
Proof.
  intros Hall. rewrite emit_S. apply deliver_to_user_functions. exact Hall.
Qed.

Lemma facade_ready_spec (w : World) :
  facade_ready w = true ↔
    listeners_of "messaging_message_received" (subscriptions w) = [MessageReceivedFanOut]
    ∧ listeners_of "messaging_token_refreshed" (subscriptions w) = [TokenRefreshedFanOut]
    ∧ forallb is_user_fn (listeners_of "onMessage" (subscriptions w)) = true
    ∧ forallb is_user_fn (listeners_of "onTokenRefresh" (subscriptions w)) = true.
Proof.
  unfold facade_ready. rewrite !andb_true_iff, !bool_decide_eq_true. tauto.
Qed.

Lemma emit_message_received (fuel : nat) (message : JsValue) (w : World) :
  facade_ready w = true →
  emit (S (S fuel)) "messaging_message_received" message w
    = emit (S fuel) "onMessage" (RemoteMessage_new message) w.
Proof.
  intros Hready. apply facade_ready_spec in Hready as (Hmsg & _ & _ & _).
  rewrite (emit_S (S fuel)), Hmsg. cbn [deliver apply_listener].
  destruct (emit (S fuel) "onMessage" (RemoteMessage_new message) w); reflexivity.
Qed.

Lemma emit_token_refreshed (fuel : nat) (token : JsValue) (w : World) :
  facade_ready w = true →
  emit (S (S fuel)) "messaging_token_refreshed" token w
    = emit (S fuel) "onTokenRefresh" token w.
Proof.
  intros Hready. apply facade_ready_spec in Hready as (_ & Htok & _ & _).
  rewrite (emit_S (S fuel)), Htok. cbn [deliver apply_listener].
  destruct (emit (S fuel) "onTokenRefresh" token w); reflexivity.
Qed.

Lemma user_functions_elem (ls : list Callable) (f : nat) :
  f ∈ user_functions ls ↔ UserFn f ∈ ls.
Proof.
  unfold user_functions. rewrite list_elem_of_omap. split.
  - intros (l & Hin & Hl). destruct l; inversion Hl; subst. exact Hin.
  - intros Hin. exists (UserFn f). split; [exact Hin | reflexivity].
Qed.

Lemma user_functions_filter (ls : list Callable) (f : nat) :
  user_functions (filter (λ x, x ≠ UserFn f) ls)
    = filter (λ g, g ≠ f) (user_functions ls).
Proof.
  induction ls as [|l rest IH]; [reflexivity|].
  rewrite filter_cons. destruct l as [g| |].
  - cbn [user_functions omap list_omap]. fold (user_functions rest).
    rewrite filter_cons.
    destruct (decide (UserFn g ≠ UserFn f)) as [Hne|Heq];
      destruct (decide (g ≠ f)) as [Hne'|Heq'].
    + cbn. f_equal. exact IH.
    + exfalso. apply Hne. f_equal. apply dec_stable. exact Heq'.
    + exfalso. apply Heq. congruence.
    + exact IH.
  - rewrite decide_True by discriminate. cbn. exact IH.
  - rewrite decide_True by discriminate. cbn. exact IH.
Qed.

Lemma forallb_filter_user (P : Callable → Prop) `{∀ x, Decision (P x)}
  (ls : list Callable) :
  forallb is_user_fn ls = true → forallb is_user_fn (filter P ls) = true.
Proof.
  induction ls as [|l rest IH]; [reflexivity|].
  intros Hall. cbn [forallb] in Hall. apply andb_true_iff in Hall as [Hl Hrest].
  rewrite filter_cons. destruct (decide (P l)).
  - cbn [forallb]. rewrite Hl. apply IH. exact Hrest.
  - apply IH. exact Hrest.
Qed.

Section Properties.

Variable native : list NativeCall -> NativeCall -> Completion JsValue.
Variable build : JsValue -> Completion JsValue.
Variable ERROR_UNSUPPORTED_MODULE_METHOD : string -> string -> string.
Variable app : App.

(** C1. A value that is not an instance of RemoteMessage makes
    [sendMessage] return normally (nothing is thrown) a rejected promise
    whose error message ends with [typeof] of the value; the world, and
    with it the trace of native calls, is left as it was. *)
Theorem sendMessage_rejects_other_values (value : JsValue) (w : World) :
  instanceof_RemoteMessage value = false →
  sendMessage native build value w =
    (Normal (JsPromiseRejected (JsError
       ("Messaging:sendMessage expects a 'RemoteMessage' but got type "
          +:+ typeof value))), w).
Proof.
  intros Hno. unfold sendMessage. rewrite Hno. reflexivity.
Qed.

Lemma run_bind {A B} (m : Run A) (k : A → Run B) (w : World) :
  (m ≫= k) w = match m w with
               | (Normal a, w') => k a w'
               | (Abrupt e, w') => (Abrupt e, w')
               end.
Proof. reflexivity. Qed.

(** C2. When the [appName] or the [senderId] taken from the options is
    neither [undefined] nor a string, [getToken] and [deleteToken]
    complete abruptly with the error of the failed check, and the world
    is left as it was: the trace of native calls has not grown. *)
Theorem token_arguments_checked_before_delegation
  (options appName senderId : JsValue) (w : World) :
  destructure_TokenOptions options w = (Normal (appName, senderId), w) →
  not_undefined_nor_string appName || not_undefined_nor_string senderId = true →
  getToken native app options w =
    (Abrupt (JsError
       (if not_undefined_nor_string appName
        then "firebase.messaging().getToken(*) 'projectId' expected a string."
        else "firebase.messaging().getToken(*) 'senderId' expected a string.")), w)
  ∧ deleteToken native app options w =
    (Abrupt (JsError
       (if not_undefined_nor_string appName
        then "firebase.messaging().deleteToken(*) 'projectId' expected a string."
        else "firebase.messaging().deleteToken(*) 'senderId' expected a string.")), w).
Proof.
  intros Hopts Hbad. unfold getToken, deleteToken.
  rewrite !run_bind, Hopts. unfold not_undefined_nor_string in *.
  destruct (negb (isUndefined appName) && negb (isString appName)) eqn:Ha.
  - split; reflexivity.
  - cbn [orb] in Hbad. rewrite Hbad. split; reflexivity.
Qed.

(** C6. Whatever the arguments, [setBackgroundMessageHandler] and
    [useServiceWorker] complete abruptly, the world untouched, with an
    error whose message is the unsupported-method text for the module
    "messaging" and the method called; as that text names the module and
    the method it is given, so does the message. *)
Theorem unsupported_methods_always_throw
  (arguments : list JsValue) (w : World) :
  (∀ namespace method,
      names (ERROR_UNSUPPORTED_MODULE_METHOD namespace method) namespace
      ∧ names (ERROR_UNSUPPORTED_MODULE_METHOD namespace method) method) →
  (∃ message,
      setBackgroundMessageHandler ERROR_UNSUPPORTED_MODULE_METHOD arguments w
        = (Abrupt (JsError message), w)
      ∧ message = ERROR_UNSUPPORTED_MODULE_METHOD "messaging" "setBackgroundMessageHandler"
      ∧ names message "messaging"
      ∧ names message "setBackgroundMessageHandler")
  ∧ (∃ message,
      useServiceWorker ERROR_UNSUPPORTED_MODULE_METHOD arguments w
        = (Abrupt (JsError message), w)
      ∧ message = ERROR_UNSUPPORTED_MODULE_METHOD "messaging" "useServiceWorker"
      ∧ names message "messaging"
      ∧ names message "useServiceWorker").
Proof.
  intros Hnames. split.
  - destruct (Hnames "messaging" "setBackgroundMessageHandler") as [Hm Hs].
    eexists. repeat split; [exact Hm | exact Hs].
  - destruct (Hnames "messaging" "useServiceWorker") as [Hm Hs].
    eexists. repeat split; [exact Hm | exact Hs].
Qed.

(** C7. Given an instance of RemoteMessage, [sendMessage] never
    completes abruptly: an exception of [build] comes back as a rejected
    promise carrying it, with no native call made; an exception of the
    native [sendMessage] comes back as a rejected promise carrying it;
    otherwise the native call's result is returned. *)
Theorem sendMessage_never_throws (payload : JsValue) (w : World) :
  sendMessage native build (JsRemoteMessage payload) w =
    match build payload with
    | Abrupt error => (Normal (JsPromiseRejected error), w)
    | Normal built =>
        (match native (native_calls w) (N_sendMessage built) with
         | Abrupt error => Normal (JsPromiseRejected error)
         | Normal result => Normal result
         end, record_native_call (N_sendMessage built) w)
    end
  ∧ ∀ thrown w', sendMessage native build (JsRemoteMessage payload) w ≠ (Abrupt thrown, w').
Proof.
  assert (Heq : sendMessage native build (JsRemoteMessage payload) w =
    match build payload with
    | Abrupt error => (Normal (JsPromiseRejected error), w)
    | Normal built =>
        (match native (native_calls w) (N_sendMessage built) with
         | Abrupt error => Normal (JsPromiseRejected error)
         | Normal result => Normal result
         end, record_native_call (N_sendMessage built) w)
    end).
  { unfold sendMessage, try_catch. cbn [instanceof_RemoteMessage negb].
    rewrite run_bind. unfold RemoteMessage_build, lift, call_native.
    destruct (build payload) as [built|error]; [|reflexivity].
    destruct (native (native_calls w) (N_sendMessage built)); reflexivity. }
  split; [exact Heq|].
  intros thrown w'. rewrite Heq.
  destruct (build payload) as [built|error]; [|discriminate].
  destruct (native (native_calls w) (N_sendMessage built)); discriminate.
Qed.

Lemma resolve_listener_run (method : string) (handler : JsValue) (w : World) :
  resolve_listener method handler w =
    match handler_callback handler with
    | Some f => (Normal (UserFn f), w)
    | None => (Abrupt (JsError ("Messaging." +:+ method +:+
        " failed: First argument must be a function or observer object with a `next` function.")), w)
    end.
Proof.
  unfold resolve_listener. rewrite handler_callback_resolve.
  destruct (handler_callback handler); reflexivity.
Qed.

Lemma onMessage_run (handler : JsValue) (w : World) :
  onMessage handler w =
    match handler_callback handler with
    | Some f =>
        (Normal (RemoveOnMessage (UserFn f)),
         mkWorld (add "onMessage" (UserFn f) (subscriptions w))
                 (native_calls w) (invoked w)
                 (logged w ++ ["Creating onMessage listener"]))
    | None =>
        (Abrupt (JsError "Messaging.onMessage failed: First argument must be a function or observer object with a `next` function."), w)
    end.
Proof.
  unfold onMessage. rewrite run_bind, resolve_listener_run.
  destruct (handler_callback handler); reflexivity.
Qed.

Lemma onTokenRefresh_run (handler : JsValue) (w : World) :
  onTokenRefresh handler w =
    match handler_callback handler with
    | Some f =>
        (Normal (RemoveOnTokenRefresh (UserFn f)),
         mkWorld (add "onTokenRefresh" (UserFn f) (subscriptions w))
                 (native_calls w) (invoked w)
                 (logged w ++ ["Creating onTokenRefresh listener"]))
    | None =>
        (Abrupt (JsError "Messaging.onTokenRefresh failed: First argument must be a function or observer object with a `next` function."), w)
    end.
Proof.
  unfold onTokenRefresh. rewrite run_bind, resolve_listener_run.
  destruct (handler_callback handler); reflexivity.
Qed.

(** C3. [onMessage] and [onTokenRefresh] succeed exactly when the
    argument is a function or an object whose [next] member is a
    function: then that function is put on the channel (and the creation
    is logged) and a disposer for it is returned; for every other
    argument the call completes abruptly with the method's error and
    the world, registry included, is left as it was. *)
Theorem handlers_accepted_exactly (handler : JsValue) (w : World) :
  match handler_callback handler with
  | Some f =>
      onMessage handler w =
        (Normal (RemoveOnMessage (UserFn f)),
         mkWorld (add "onMessage" (UserFn f) (subscriptions w))
                 (native_calls w) (invoked w)
                 (logged w ++ ["Creating onMessage listener"]))
      ∧ UserFn f ∈ listeners_of "onMessage" (subscriptions (onMessage handler w).2)
      ∧ onTokenRefresh handler w =
        (Normal (RemoveOnTokenRefresh (UserFn f)),
         mkWorld (add "onTokenRefresh" (UserFn f) (subscriptions w))
                 (native_calls w) (invoked w)
                 (logged w ++ ["Creating onTokenRefresh listener"]))
      ∧ UserFn f ∈ listeners_of "onTokenRefresh" (subscriptions (onTokenRefresh handler w).2)
  | None =>
      onMessage handler w =
        (Abrupt (JsError "Messaging.onMessage failed: First argument must be a function or observer object with a `next` function."), w)
      ∧ onTokenRefresh handler w =
        (Abrupt (JsError "Messaging.onTokenRefresh failed: First argument must be a function or observer object with a `next` function."), w)
  end.
Proof.
  rewrite onMessage_run, onTokenRefresh_run.
  destruct (handler_callback handler) as [f|].
  - repeat split; apply elem_of_listeners_add.
  - split; reflexivity.
Qed.

(** C4. On a ready facade an inbound [messaging_message_received] event
    with payload [message] is the emission, on the public [onMessage]
    channel, of the RemoteMessage made from [message]; it returns, and
    every listener on that channel at that time has then been called
    with that RemoteMessage, in registration order. *)
Theorem inbound_message_reaches_every_listener
  (message : JsValue) (w : World) (fuel : nat) :
  facade_ready w = true →
  (2 ≤ fuel)%nat →
  emit fuel "messaging_message_received" message w
    = emit (fuel - 1)%nat "onMessage" (RemoteMessage_new message) w
  ∧ ∃ w',
      emit fuel "messaging_message_received" message w = Some w'
      ∧ invoked w' =
          (invoked w ++
            ((λ f, (f, RemoteMessage_new message)) <$>
               user_functions (listeners_of "onMessage" (subscriptions w))))%list
      ∧ ∀ l, l ∈ listeners_of "onMessage" (subscriptions w) →
             ∃ f, l = UserFn f ∧ (f, JsRemoteMessage message) ∈ invoked w'.
Proof.
  intros Hready Hfuel.
  destruct fuel as [|[|fuel]]; [lia | lia |].
  replace (S (S fuel) - 1)%nat with (S fuel) by lia.
  rewrite emit_message_received by exact Hready.
  split; [reflexivity|].
  pose proof Hready as Hr. apply facade_ready_spec in Hr as (_ & _ & Hpub & _).
  rewrite emit_public by exact Hpub.
  eexists. split; [reflexivity|]. split; [reflexivity|].
  intros l Hl.
  assert (Hu : is_user_fn l = true).
  { rewrite forallb_forall in Hpub. apply Hpub. apply list_elem_of_In. exact Hl. }
  destruct l as [f| |]; try discriminate.
  exists f. split; [reflexivity|].
  cbn [invoked invoke_all]. apply elem_of_app. right.
  apply (list_elem_of_fmap_2 (λ g, (g, RemoteMessage_new message))).
  apply user_functions_elem. exact Hl.
Qed.

Lemma dispose_run (d : Disposer) (w : World) :
  dispose d w =
    (Normal tt,
     mkWorld (remove (disposer_channel d) (disposer_listener d) (subscriptions w))
             (native_calls w) (invoked w)
             (logged w ++ ["Removing " +:+ disposer_channel d +:+ " listener"])).
Proof. destruct d; reflexivity. Qed.

Lemma registration_disposer (handler : JsValue) (w0 w1 : World) (d : Disposer) :
  onMessage handler w0 = (Normal d, w1) ∨ onTokenRefresh handler w0 = (Normal d, w1) →
  ∃ f, handler_callback handler = Some f
       ∧ disposer_listener d = UserFn f
       ∧ (disposer_channel d = "onMessage" ∨ disposer_channel d = "onTokenRefresh").
Proof.
  rewrite onMessage_run, onTokenRefresh_run.
  destruct (handler_callback handler) as [f|].
  - intros [Hreg|Hreg]; inversion Hreg; subst; exists f; cbn; auto.
  - intros [Hreg|Hreg]; discriminate.
Qed.

(** C5. The disposer returned by a registration through [onMessage] or
    [onTokenRefresh] takes the registered callback, and only it, off its
    channel, in whatever world it is called: the channel keeps its other
    listeners in order, the other channels are untouched, and firing the
    channel afterwards calls every remaining listener and makes no call
    of the disposed callback. *)
Theorem disposer_removes_exactly_its_callback
  (handler : JsValue) (w0 w1 : World) (d : Disposer) :
  onMessage handler w0 = (Normal d, w1) ∨ onTokenRefresh handler w0 = (Normal d, w1) →
  ∃ f, handler_callback handler = Some f
    ∧ disposer_listener d = UserFn f
    ∧ ∀ w : World,
        (dispose d w).1 = Normal tt
        ∧ listeners_of (disposer_channel d) (subscriptions (dispose d w).2)
            = filter (λ l, l ≠ UserFn f)
                     (listeners_of (disposer_channel d) (subscriptions w))
        ∧ (∀ other, disposer_channel d ≠ other →
             listeners_of other (subscriptions (dispose d w).2)
               = listeners_of other (subscriptions w))
        ∧ (facade_ready w = true →
           ∀ (fuel : nat) (arg : JsValue), (1 ≤ fuel)%nat →
           ∃ w',
             emit fuel (disposer_channel d) arg (dispose d w).2 = Some w'
             ∧ invoked w' =
                 (invoked w ++
                   ((λ g, (g, arg)) <$>
                      filter (λ g, g ≠ f)
                        (user_functions
                           (listeners_of (disposer_channel d) (subscriptions w)))))%list
             ∧ (∀ arg', (f, arg') ∈ invoked w' → (f, arg') ∈ invoked w)
             ∧ (∀ g, g ≠ f →
                  UserFn g ∈ listeners_of (disposer_channel d) (subscriptions w) →
                  (g, arg) ∈ invoked w')).
Proof.
  intros Hreg.
  destruct (registration_disposer handler w0 w1 d Hreg) as (f & Hcb & Hl & Hch).
  exists f. split; [exact Hcb|]. split; [exact Hl|].
  intros w. rewrite dispose_run. cbn [fst snd subscriptions]. rewrite Hl.
  split; [reflexivity|].
  split; [apply listeners_of_remove_same|].
  split; [intros other Hne; apply listeners_of_remove_other; exact Hne|].
  intros Hready fuel arg Hfuel.
  destruct fuel as [|fuel]; [lia|].
  assert (Hpub : forallb is_user_fn
                   (listeners_of (disposer_channel d) (subscriptions w)) = true).
  { apply facade_ready_spec in Hready as (_ & _ & Hm & Ht).
    destruct Hch as [-> | ->]; assumption. }
  rewrite emit_public; cbn [subscriptions];
    rewrite listeners_of_remove_same;
    [|apply forallb_filter_user; exact Hpub].
  rewrite user_functions_filter.
  eexists. split; [reflexivity|].
  cbn [invoked invoke_all]. split; [reflexivity|]. split.
  - intros arg' Hin. apply elem_of_app in Hin as [Hin|Hin]; [exact Hin|].
    apply list_elem_of_fmap in Hin as (g & Heq & Hg).
    apply list_elem_of_filter in Hg as [Hne _].
    inversion Heq; subst. contradiction.
  - intros g Hne Hg. apply elem_of_app. right.
    apply (list_elem_of_fmap_2 (λ g, (g, arg))).
    apply list_elem_of_filter. split; [exact Hne|].
    apply user_functions_elem. exact Hg.
Qed.

Lemma getToken_run (options appName senderId : JsValue) (w : World) :
  destructure_TokenOptions options w = (Normal (appName, senderId), w) →
  not_undefined_nor_string appName = false →
  not_undefined_nor_string senderId = false →
  getToken native app options w =
    call_native native
      (N_getToken (js_or appName (app_name app))
                  (js_or senderId (app_messagingSenderId app))) w.
Proof.
  intros Hopts Ha Hs. unfold getToken, not_undefined_nor_string in *.
  rewrite run_bind, Hopts, Ha, Hs. reflexivity.
Qed.

Lemma deleteToken_run (options appName senderId : JsValue) (w : World) :
  destructure_TokenOptions options w = (Normal (appName, senderId), w) →
  not_undefined_nor_string appName = false →
  not_undefined_nor_string senderId = false →
  deleteToken native app options w =
    call_native native
      (N_deleteToken (js_or appName (app_name app))
                     (js_or senderId (app_messagingSenderId app))) w.
Proof.
  intros Hopts Ha Hs. unfold deleteToken, not_undefined_nor_string in *.
  rewrite run_bind, Hopts, Ha, Hs. reflexivity.
Qed.

(** C8. With arguments that pass the checks, [getToken] and
    [deleteToken] make exactly one native call and complete as it does,
    its result unchanged; in that call the application's name stands
    where [appName] was [undefined] and the application's configured
    sender id where [senderId] was [undefined]. *)
Theorem absent_token_arguments_default
  (options appName senderId : JsValue) (w : World) :
  destructure_TokenOptions options w = (Normal (appName, senderId), w) →
  not_undefined_nor_string appName = false →
  not_undefined_nor_string senderId = false →
  ∃ name sender,
    getToken native app options w =
      (native (native_calls w) (N_getToken name sender),
       record_native_call (N_getToken name sender) w)
    ∧ deleteToken native app options w =
      (native (native_calls w) (N_deleteToken name sender),
       record_native_call (N_deleteToken name sender) w)
    ∧ (appName = JsUndefined → name = app_name app)
    ∧ (senderId = JsUndefined → sender = app_messagingSenderId app).
Proof.
  intros Hopts Ha Hs.
  exists (js_or appName (app_name app)), (js_or senderId (app_messagingSenderId app)).
  rewrite (getToken_run _ _ _ _ Hopts Ha Hs), (deleteToken_run _ _ _ _ Hopts Ha Hs).
  repeat split; intros ->; reflexivity.
Qed.

(** C9. The empty string passes the string check of [getToken] and
    [deleteToken], yet the native call does not receive it: where
    [appName] was "" the call carries the application's name, and where
    [senderId] was "" it carries the application's configured sender
    id. *)
Theorem empty_token_arguments_default
  (options appName senderId : JsValue) (w : World) :
  destructure_TokenOptions options w = (Normal (appName, senderId), w) →
  not_undefined_nor_string appName = false →
  not_undefined_nor_string senderId = false →
  not_undefined_nor_string (JsString "") = false
  ∧ ∃ name sender,
    getToken native app options w =
      (native (native_calls w) (N_getToken name sender),
       record_native_call (N_getToken name sender) w)
    ∧ deleteToken native app options w =
      (native (native_calls w) (N_deleteToken name sender),
       record_native_call (N_deleteToken name sender) w)
    ∧ (appName = JsString "" → name = app_name app)
    ∧ (senderId = JsString "" → sender = app_messagingSenderId app).
Proof.
  intros Hopts Ha Hs. split; [reflexivity|].
  exists (js_or appName (app_name app)), (js_or senderId (app_messagingSenderId app)).
  rewrite (getToken_run _ _ _ _ Hopts Ha Hs), (deleteToken_run _ _ _ _ Hopts Ha Hs).
  repeat split; intros ->; reflexivity.
Qed.

(** C10, as amended. [subscribeToTopic] and [unsubscribeFromTopic] check
    nothing: whatever the argument, they make one native call carrying
    it unchanged and complete exactly as that call does, returning its
    result or letting its exception through. *)
Theorem topic_methods_delegate_unchecked (topic : JsValue) (w : World) :
  subscribeToTopic native topic w =
    (native (native_calls w) (N_subscribeToTopic topic),
     record_native_call (N_subscribeToTopic topic) w)
  ∧ unsubscribeFromTopic native topic w =
    (native (native_calls w) (N_unsubscribeFromTopic topic),
     record_native_call (N_unsubscribeFromTopic topic) w)
  ∧ (∀ thrown w',
       subscribeToTopic native topic w = (Abrupt thrown, w') →
       native (native_calls w) (N_subscribeToTopic topic) = Abrupt thrown)
  ∧ (∀ thrown w',
       unsubscribeFromTopic native topic w = (Abrupt thrown, w') →
       native (native_calls w) (N_unsubscribeFromTopic topic) = Abrupt thrown).
Proof.
  unfold subscribeToTopic, unsubscribeFromTopic, call_native.
  repeat split; intros thrown w' Heq; inversion Heq; reflexivity.
Qed.

(** *** The facade stays ready *)

Lemma constructor_ready (Platform_OS : string) :
  facade_ready (constructor native Platform_OS fresh_world).2 = true.
Proof.
  unfold constructor, mbind, Run_bind, bind, addListener, call_native, ret.
  case_bool_decide; [|reflexivity].
  match goal with |- context [native ?h ?c] => destruct (native h c) end;
    reflexivity.
Qed.

Lemma registration_ready (handler : JsValue) (w : World) :
  facade_ready w = true →
  facade_ready (onMessage handler w).2 = true
  ∧ facade_ready (onTokenRefresh handler w).2 = true.
Proof.
  intros Hready. rewrite onMessage_run, onTokenRefresh_run.
  destruct (handler_callback handler) as [f|]; [|split; exact Hready].
  apply facade_ready_spec in Hready as (Hmsg & Htok & Hm & Ht).
  split; apply facade_ready_spec; cbn [snd subscriptions];
    rewrite listeners_of_add_same, !listeners_of_add_other by discriminate;
    repeat split; try assumption;
    case_bool_decide; try assumption;
    rewrite forallb_app; cbn; rewrite ?Hm, ?Ht; reflexivity.
Qed.

Lemma dispose_ready (d : Disposer) (w : World) :
  disposer_channel d = "onMessage" ∨ disposer_channel d = "onTokenRefresh" →
  facade_ready w = true →
  facade_ready (dispose d w).2 = true.
Proof.
  intros Hch Hready. rewrite dispose_run. cbn [snd].
  apply facade_ready_spec in Hready as (Hmsg & Htok & Hm & Ht).
  apply facade_ready_spec; cbn [subscriptions].
  destruct Hch as [-> | ->];
    rewrite listeners_of_remove_same, !listeners_of_remove_other by discriminate;
    repeat split; try assumption; apply forallb_filter_user; assumption.
Qed.

End Properties.

(** ** The properties at concrete inputs *)

Lemma string_app_assoc (a b c : string) : (a +:+ b) +:+ c = a +:+ (b +:+ c).
Proof.
  induction a as [|ch a IH]; [reflexivity|].
  change (String ch ((a +:+ b) +:+ c) = String ch (a +:+ (b +:+ c))).
  f_equal. exact IH.
Qed.

Lemma demo_unsupported_message_names (namespace method : string) :
  names (demo_unsupported_message namespace method) namespace
  ∧ names (demo_unsupported_message namespace method) method.
Proof.
  unfold names, demo_unsupported_message. split.
  - exists "firebase.", ("()." +:+ method +:+ "() is unsupported by the native Firebase SDKs.").
    reflexivity.
  - exists ("firebase." +:+ namespace +:+ "()."),
           "() is unsupported by the native Firebase SDKs.".
    rewrite !string_app_assoc. reflexivity.
Qed.

Lemma sendMessage_rejects_other_values_witness :
  instanceof_RemoteMessage (JsString "hello") = false
  ∧ sendMessage promising_native strict_build (JsString "hello") constructed_world =
      (Normal (JsPromiseRejected (JsError
         "Messaging:sendMessage expects a 'RemoteMessage' but got type string")),
       constructed_world).
Proof.
  split; [reflexivity|].
  apply (sendMessage_rejects_other_values promising_native strict_build
           (JsString "hello") constructed_world).
  reflexivity.
Defined.

Lemma token_arguments_checked_before_delegation_witness :
  getToken promising_native demo_app
      (JsObject [("appName", JsNumber 42)]) constructed_world =
    (Abrupt (JsError "firebase.messaging().getToken(*) 'projectId' expected a string."),
     constructed_world)
  ∧ deleteToken promising_native demo_app
      (JsObject [("appName", JsNumber 42)]) constructed_world =
    (Abrupt (JsError "firebase.messaging().deleteToken(*) 'projectId' expected a string."),
     constructed_world).
Proof.
  apply (token_arguments_checked_before_delegation promising_native demo_app
           (JsObject [("appName", JsNumber 42)]) (JsNumber 42) JsUndefined
           constructed_world); reflexivity.
Defined.

Lemma unsupported_methods_always_throw_witness :
  setBackgroundMessageHandler demo_unsupported_message
      [JsFunction 5] constructed_world =
    (Abrupt (JsError
       "firebase.messaging().setBackgroundMessageHandler() is unsupported by the native Firebase SDKs."),
     constructed_world)
  ∧ useServiceWorker demo_unsupported_message [] constructed_world =
    (Abrupt (JsError
       "firebase.messaging().useServiceWorker() is unsupported by the native Firebase SDKs."),
     constructed_world).
Proof.
  split.
  - destruct (unsupported_methods_always_throw demo_unsupported_message
                [JsFunction 5] constructed_world demo_unsupported_message_names)
      as [(message & Hrun & -> & _) _].
    exact Hrun.
  - destruct (unsupported_methods_always_throw demo_unsupported_message
                [] constructed_world demo_unsupported_message_names)
      as [_ (message & Hrun & -> & _)].
    exact Hrun.
Defined.

Lemma sendMessage_never_throws_witness :
  sendMessage throwing_native strict_build
      (JsRemoteMessage (JsObject [("to", JsString "peer")])) constructed_world =
    (Normal (JsPromiseRejected (JsError "native module method threw")),
     record_native_call (N_sendMessage (JsObject [("to", JsString "peer")]))
       constructed_world)
  ∧ sendMessage promising_native strict_build
      (JsRemoteMessage (JsObject [])) constructed_world =
    (Normal (JsPromiseRejected
       (JsError "RemoteMessage: Missing required `to` property")),
     constructed_world).
Proof.
  split.
  - exact (proj1 (sendMessage_never_throws throwing_native strict_build
                    (JsObject [("to", JsString "peer")]) constructed_world)).
  - exact (proj1 (sendMessage_never_throws promising_native strict_build
                    (JsObject []) constructed_world)).
Defined.

Lemma handlers_accepted_exactly_witness :
  (onMessage (JsObject [("next", JsFunction 2)]) constructed_world).1
    = Normal (RemoveOnMessage (UserFn 2))
  ∧ onMessage (JsObject [("next", JsString "not callable")]) constructed_world =
    (Abrupt (JsError "Messaging.onMessage failed: First argument must be a function or observer object with a `next` function."),
     constructed_world)
  ∧ onTokenRefresh JsNull constructed_world =
    (Abrupt (JsError "Messaging.onTokenRefresh failed: First argument must be a function or observer object with a `next` function."),
     constructed_world).
Proof.
  split; [|split].
  - pose proof (handlers_accepted_exactly
                  (JsObject [("next", JsFunction 2)]) constructed_world) as H.
    cbn [handler_callback get_field] in H. destruct H as (-> & _). reflexivity.
  - exact (proj1 (handlers_accepted_exactly
                    (JsObject [("next", JsString "not callable")]) constructed_world)).
  - exact (proj2 (handlers_accepted_exactly JsNull constructed_world)).
Defined.

Lemma inbound_message_reaches_every_listener_witness :
  facade_ready two_listeners_world = true
  ∧ ∃ w',
      emit 2 "messaging_message_received"
           (JsObject [("messageId", JsString "m1")]) two_listeners_world = Some w'
      ∧ invoked w' =
          [(1, JsRemoteMessage (JsObject [("messageId", JsString "m1")]));
           (2, JsRemoteMessage (JsObject [("messageId", JsString "m1")]))].
Proof.
  split; [reflexivity|].
  destruct (inbound_message_reaches_every_listener
              (JsObject [("messageId", JsString "m1")]) two_listeners_world 2
              eq_refl (le_n 2)) as (_ & w' & Hemit & Hinvoked & _).
  exists w'. split; [exact Hemit | exact Hinvoked].
Defined.

Lemma disposer_removes_exactly_its_callback_witness :
  ∃ w',
    emit 1 "onMessage" (JsString "ping")
         (dispose (RemoveOnMessage (UserFn 1)) two_listeners_world).2 = Some w'
    ∧ invoked w' = [(2, JsString "ping")].
Proof.
  destruct (disposer_removes_exactly_its_callback
              (JsFunction 1) constructed_world
              (onMessage (JsFunction 1) constructed_world).2
              (RemoveOnMessage (UserFn 1)) (or_introl eq_refl))
    as (f & Hcallback & _ & Hall).
  injection Hcallback as <-.
  destruct (Hall two_listeners_world) as (_ & _ & _ & Hfire).
  destruct (Hfire eq_refl 1 (JsString "ping") (le_n 1))
    as (w' & Hemit & Hinvoked & _).
  exists w'. split; [exact Hemit | exact Hinvoked].
Defined.

Lemma absent_token_arguments_default_witness :
  getToken promising_native demo_app JsUndefined constructed_world =
    (Normal (JsPromiseNative 0),
     record_native_call
       (N_getToken (JsString "[DEFAULT]") (JsString "305229645282"))
       constructed_world)
  ∧ deleteToken promising_native demo_app JsUndefined constructed_world =
    (Normal (JsPromiseNative 0),
     record_native_call
       (N_deleteToken (JsString "[DEFAULT]") (JsString "305229645282"))
       constructed_world).
Proof.
  destruct (absent_token_arguments_default promising_native demo_app
              JsUndefined JsUndefined JsUndefined constructed_world
              eq_refl eq_refl eq_refl)
    as (name & sender & Hget & Hdelete & Hname & Hsender).
  rewrite (Hname eq_refl), (Hsender eq_refl) in Hget, Hdelete.
  split; [exact Hget | exact Hdelete].
Defined.

Lemma empty_token_arguments_default_witness :
  getToken promising_native demo_app
      (JsObject [("appName", JsString ""); ("senderId", JsString "")])
      constructed_world =
    (Normal (JsPromiseNative 0),
     record_native_call
       (N_getToken (JsString "[DEFAULT]") (JsString "305229645282"))
       constructed_world)
  ∧ deleteToken promising_native demo_app
      (JsObject [("appName", JsString ""); ("senderId", JsString "")])
      constructed_world =
    (Normal (JsPromiseNative 0),
     record_native_call
       (N_deleteToken (JsString "[DEFAULT]") (JsString "305229645282"))
       constructed_world).
Proof.
  destruct (empty_token_arguments_default promising_native demo_app
              (JsObject [("appName", JsString ""); ("senderId", JsString "")])
              (JsString "") (JsString "") constructed_world
              eq_refl eq_refl eq_refl)
    as (_ & name & sender & Hget & Hdelete & Hname & Hsender).
  rewrite (Hname eq_refl), (Hsender eq_refl) in Hget, Hdelete.
  split; [exact Hget | exact Hdelete].
Defined.

Lemma topic_methods_delegate_unchecked_witness :
  subscribeToTopic promising_native (JsNumber 7) constructed_world =
    (Normal (JsPromiseNative 0),
     record_native_call (N_subscribeToTopic (JsNumber 7)) constructed_world)
  ∧ unsubscribeFromTopic promising_native JsNull constructed_world =
    (Normal (JsPromiseNative 0),
     record_native_call (N_unsubscribeFromTopic JsNull) constructed_world).
Proof.
  split.
  - exact (proj1 (topic_methods_delegate_unchecked promising_native
                    (JsNumber 7) constructed_world)).
  - exact (proj1 (proj2 (topic_methods_delegate_unchecked promising_native
                           JsNull constructed_world))).
Defined.

(** C10, counterexample: the two topic methods do throw when the bridge
    method they call throws; there is no [try] around their native call,
    as there is in [sendMessage]. *)
Lemma topic_methods_let_native_exception_through :
  subscribeToTopic throwing_native (JsString "news") constructed_world =
    (Abrupt (JsError "native module method threw"),
     record_native_call (N_subscribeToTopic (JsString "news")) constructed_world)
  ∧ unsubscribeFromTopic throwing_native (JsString "news") constructed_world =
    (Abrupt (JsError "native module method threw"),
     record_native_call (N_unsubscribeFromTopic (JsString "news")) constructed_world)
  ∧ ¬ (∀ native topic w, ∃ result w',
         subscribeToTopic native topic w = (Normal result, w')).
Proof.
  split; [reflexivity|]. split; [reflexivity|].
  intros Hnever.
  destruct (Hnever throwing_native (JsString "news") constructed_world)
    as (result & w' & Heq).
  discriminate Heq.
Qed.

(** ** Further properties of the facade *)

Lemma valid_argument_cases (value : JsValue) :
  not_undefined_nor_string value = false →
  value = JsUndefined ∨ ∃ s, value = JsString s.
Proof.
  destruct value; cbn; try discriminate; eauto.
Qed.

Lemma js_or_string (s : string) (default : JsValue) :
  s ≠ "" → js_or (JsString s) default = JsString s.
Proof.
  intros Hne. unfold js_or, truthy. rewrite bool_decide_eq_false_2 by exact Hne.
  reflexivity.
Qed.

Lemma filter_out_last (ls : list Callable) (l : Callable) :
  l ∉ ls → filter (λ x, x ≠ l) (ls ++ [l])%list = ls.
Proof.
  intros Hnot. rewrite filter_app.
  rewrite (filter_cons _ l []), decide_False by (intros Hne; apply Hne; reflexivity).
  rewrite filter_nil, app_nil_r.
  induction ls as [|x rest IH]; [reflexivity|].
  apply not_elem_of_cons in Hnot as [Hx Hrest].
  rewrite filter_cons, decide_True by (intros ->; apply Hx; reflexivity).
  f_equal. apply IH. exact Hrest.
Qed.

Lemma filter_out_twice (ls : list Callable) (l : Callable) :
  filter (λ x, x ≠ l) (filter (λ x, x ≠ l) ls) = filter (λ x, x ≠ l) ls.
Proof.
  induction ls as [|x rest IH]; [reflexivity|].
  rewrite filter_cons. destruct (decide (x ≠ l)) as [Hne|Heq].
  - rewrite filter_cons, decide_True by exact Hne. f_equal. exact IH.
  - exact IH.
Qed.

Lemma deliver_frame (call : Callable → World → option World)
  (ls : list Callable) (w w' : World) :
  (∀ l v v', call l v = Some v' →
     subscriptions v' = subscriptions v
     ∧ native_calls v' = native_calls v ∧ logged v' = logged v) →
  deliver call ls w = Some w' →
  subscriptions w' = subscriptions w
  ∧ native_calls w' = native_calls w ∧ logged w' = logged w.
Proof.
  intros Hcall. revert w. induction ls as [|l rest IH]; intros w Hrun.
  - cbn in Hrun. inversion Hrun; subst. auto.
  - cbn in Hrun. destruct (call l w) as [v|] eqn:Hl; [|discriminate].
    destruct (Hcall _ _ _ Hl) as (Hs & Hn & Hg).
    destruct (IH _ Hrun) as (Hs' & Hn' & Hg').
    rewrite Hs', Hn', Hg'. auto.
Qed.

Lemma emit_frame (fuel : nat) (eventType : string) (arg : JsValue) (w w' : World) :
  emit fuel eventType arg w = Some w' →
  subscriptions w' = subscriptions w
  ∧ native_calls w' = native_calls w ∧ logged w' = logged w.
Proof.
  revert eventType arg w w'.
  induction fuel as [|fuel IH]; intros eventType arg w w' Hrun; [discriminate|].
  rewrite emit_S in Hrun. eapply deliver_frame; [|exact Hrun].
  intros l v v' Hl. destruct l as [f| |]; cbn in Hl.
  - inversion Hl; subst. auto.
  - eapply IH. exact Hl.
  - eapply IH. exact Hl.
Qed.

Section Further.

Variable native : list NativeCall -> NativeCall -> Completion JsValue.
Variable build : JsValue -> Completion JsValue.
Variable ERROR_UNSUPPORTED_MODULE_METHOD : string -> string -> string.
Variable app : App.

Lemma constructor_run (Platform_OS : string) (w : World) :
  constructor native Platform_OS w =
    let w2 := mkWorld (add "messaging_token_refreshed" TokenRefreshedFanOut
                         (add "messaging_message_received" MessageReceivedFanOut
                            (subscriptions w)))
                      (native_calls w) (invoked w) (logged w) in
    if bool_decide (Platform_OS = "ios") then
      (match native (native_calls w) N_jsInitialised with
       | Normal _ => Normal tt
       | Abrupt e => Abrupt e
       end, record_native_call N_jsInitialised w2)
    else (Normal tt, w2).
Proof.
  unfold constructor, mbind, Run_bind, bind, addListener, call_native, ret.
  cbv zeta. case_bool_decide; [|reflexivity].
  match goal with
  | |- context [native ?h N_jsInitialised] => change h with (native_calls w)
  end.
  destruct (native (native_calls w) N_jsInitialised); reflexivity.
Qed.

(** X1. The constructor puts its two closures on the native channels and
    tells the native module that JavaScript is ready exactly on iOS: there
    the trace grows by the one call [jsInitialised], and an exception of
    that call leaves the constructor; elsewhere no native call is made and
    the constructor completes normally. *)
Theorem constructor_notifies_native_only_on_ios (Platform_OS : string) (w : World) :
  native_calls (constructor native Platform_OS w).2 =
    (native_calls w ++ if bool_decide (Platform_OS = "ios") then [N_jsInitialised] else [])%list
  ∧ (constructor native Platform_OS w).1 =
      (if bool_decide (Platform_OS = "ios") then
         match native (native_calls w) N_jsInitialised with
         | Normal _ => Normal tt
         | Abrupt e => Abrupt e
         end
       else Normal tt)
  ∧ MessageReceivedFanOut ∈
      listeners_of "messaging_message_received"
        (subscriptions (constructor native Platform_OS w).2)
  ∧ TokenRefreshedFanOut ∈
      listeners_of "messaging_token_refreshed"
        (subscriptions (constructor native Platform_OS w).2)
  ∧ invoked (constructor native Platform_OS w).2 = invoked w.
Proof.
  rewrite constructor_run. cbv zeta.
  assert (Hm : MessageReceivedFanOut ∈ listeners_of "messaging_message_received"
            (add "messaging_token_refreshed" TokenRefreshedFanOut
               (add "messaging_message_received" MessageReceivedFanOut (subscriptions w)))).
  { rewrite listeners_of_add_other by discriminate. apply elem_of_listeners_add. }
  pose proof (elem_of_listeners_add "messaging_token_refreshed" TokenRefreshedFanOut
                (add "messaging_message_received" MessageReceivedFanOut (subscriptions w)))
    as Ht.
  case_bool_decide; cbn [fst snd native_calls record_native_call subscriptions invoked].
  - repeat split; assumption.
  - rewrite app_nil_r. repeat split; assumption.
Qed.

(** X2. On a ready facade an inbound [messaging_token_refreshed] event is
    the emission of the very same token, not wrapped in anything, on the
    public [onTokenRefresh] channel; it returns, and every listener on
    that channel has then been called with the token, in registration
    order. *)
Theorem inbound_token_reaches_every_listener
  (token : JsValue) (w : World) (fuel : nat) :
  facade_ready w = true →
  (2 ≤ fuel)%nat →
  emit fuel "messaging_token_refreshed" token w
    = emit (fuel - 1)%nat "onTokenRefresh" token w
  ∧ ∃ w',
      emit fuel "messaging_token_refreshed" token w = Some w'
      ∧ invoked w' =
          (invoked w ++
            ((λ f, (f, token)) <$>
               user_functions (listeners_of "onTokenRefresh" (subscriptions w))))%list
      ∧ ∀ l, l ∈ listeners_of "onTokenRefresh" (subscriptions w) →
             ∃ f, l = UserFn f ∧ (f, token) ∈ invoked w'.
Proof.
  intros Hready Hfuel.
  destruct fuel as [|[|fuel]]; [lia | lia |].
  replace (S (S fuel) - 1)%nat with (S fuel) by lia.
  rewrite emit_token_refreshed by exact Hready.
  split; [reflexivity|].
  pose proof Hready as Hr. apply facade_ready_spec in Hr as (_ & _ & _ & Hpub).
  rewrite emit_public by exact Hpub.
  eexists. split; [reflexivity|]. split; [reflexivity|].
  intros l Hl.
  assert (Hu : is_user_fn l = true).
  { rewrite forallb_forall in Hpub. apply Hpub. apply list_elem_of_In. exact Hl. }
  destruct l as [f| |]; try discriminate.
  exists f. split; [reflexivity|].
  cbn [invoked invoke_all]. apply elem_of_app. right.
  apply (list_elem_of_fmap_2 (λ g, (g, token))).
  apply user_functions_elem. exact Hl.
Qed.

(** X3. The two public channels are separate: an inbound message event
    makes no call of a function that listens only for token refreshes,
    and an inbound token event makes no call of a function that is not
    listening for token refreshes. *)
Theorem channels_are_separate
  (payload : JsValue) (w : World) (fuel : nat) (f : nat) :
  facade_ready w = true →
  (2 ≤ fuel)%nat →
  (UserFn f ∉ listeners_of "onMessage" (subscriptions w) →
   ∃ w', emit fuel "messaging_message_received" payload w = Some w'
         ∧ ∀ arg, (f, arg) ∈ invoked w' → (f, arg) ∈ invoked w)
  ∧ (UserFn f ∉ listeners_of "onTokenRefresh" (subscriptions w) →
     ∃ w', emit fuel "messaging_token_refreshed" payload w = Some w'
           ∧ ∀ arg, (f, arg) ∈ invoked w' → (f, arg) ∈ invoked w).
Proof.
  intros Hready Hfuel.
  destruct fuel as [|[|fuel]]; [lia | lia |].
  pose proof Hready as Hr. apply facade_ready_spec in Hr as (_ & _ & Hm & Ht).
  split; intros Hnot.
  - rewrite emit_message_received, emit_public by assumption.
    eexists. split; [reflexivity|]. intros arg Hin.
    cbn [invoked invoke_all] in Hin. apply elem_of_app in Hin as [Hin|Hin]; [exact Hin|].
    apply list_elem_of_fmap in Hin as (g & Heq & Hg). inversion Heq; subst.
    apply user_functions_elem in Hg. contradiction.
  - rewrite emit_token_refreshed, emit_public by assumption.
    eexists. split; [reflexivity|]. intros arg Hin.
    cbn [invoked invoke_all] in Hin. apply elem_of_app in Hin as [Hin|Hin]; [exact Hin|].
    apply list_elem_of_fmap in Hin as (g & Heq & Hg). inversion Heq; subst.
    apply user_functions_elem in Hg. contradiction.
Qed.

Lemma destructure_cases (options : JsValue) (w : World) :
  (∃ thrown, destructure_TokenOptions options w = (Abrupt thrown, w))
  ∨ ∃ appName senderId,
      destructure_TokenOptions options w = (Normal (appName, senderId), w).
Proof.
  destruct options; cbn; eauto.
Qed.

Lemma js_or_forwarded (value default : JsValue) :
  not_undefined_nor_string value = false →
  forwarded_ok (js_or value default) default.
Proof.
  intros Hvalid. destruct (valid_argument_cases value Hvalid) as [-> | [s ->]].
  - left. reflexivity.
  - destruct (decide (s = "")) as [-> | Hne].
    + left. reflexivity.
    + right. exists s. split; [apply js_or_string; exact Hne | exact Hne].
Qed.

Lemma token_checks_fail (options appName senderId : JsValue) (w : World) :
  destructure_TokenOptions options w = (Normal (appName, senderId), w) →
  not_undefined_nor_string appName || not_undefined_nor_string senderId = true →
  (∃ thrown, getToken native app options w = (Abrupt thrown, w))
  ∧ (∃ thrown, deleteToken native app options w = (Abrupt thrown, w)).
Proof.
  intros Hopts Hbad. unfold getToken, deleteToken.
  rewrite !run_bind, Hopts. unfold not_undefined_nor_string in Hbad.
  destruct (negb (isUndefined appName) && negb (isString appName)).
  - split; eexists; reflexivity.
  - cbn [orb] in Hbad. rewrite Hbad. split; eexists; reflexivity.
Qed.

Lemma token_destructure_fails (options thrown : JsValue) (w : World) :
  destructure_TokenOptions options w = (Abrupt thrown, w) →
  getToken native app options w = (Abrupt thrown, w)
  ∧ deleteToken native app options w = (Abrupt thrown, w).
Proof.
  intros Hopts. unfold getToken, deleteToken. rewrite !run_bind, Hopts.
  split; reflexivity.
Qed.

(** X4. A non-empty string given as [appName] or [senderId] is what the
    native [getToken] / [deleteToken] receives: the caller's value goes
    before the application's default. *)
Theorem supplied_token_arguments_forwarded
  (options appName senderId : JsValue) (w : World) :
  destructure_TokenOptions options w = (Normal (appName, senderId), w) →
  not_undefined_nor_string appName = false →
  not_undefined_nor_string senderId = false →
  ∃ name sender,
    getToken native app options w =
      (native (native_calls w) (N_getToken name sender),
       record_native_call (N_getToken name sender) w)
    ∧ deleteToken native app options w =
      (native (native_calls w) (N_deleteToken name sender),
       record_native_call (N_deleteToken name sender) w)
    ∧ (∀ s, appName = JsString s → s ≠ "" → name = JsString s)
    ∧ (∀ s, senderId = JsString s → s ≠ "" → sender = JsString s).
Proof.
  intros Hopts Ha Hs.
  exists (js_or appName (app_name app)), (js_or senderId (app_messagingSenderId app)).
  rewrite (getToken_run _ _ _ _ _ _ Hopts Ha Hs),
          (deleteToken_run _ _ _ _ _ _ Hopts Ha Hs).
  repeat split; intros s -> Hne; apply js_or_string; exact Hne.
Qed.

(** X5. Whatever the options, [getToken] and [deleteToken] either throw
    with the world untouched, or make exactly one native call, and then
    each argument of that call is the application's default or a
    non-empty string: [undefined], [null], numbers and the empty string
    never reach the native module. *)
Theorem native_token_call_carries_default_or_string (options : JsValue) (w : World) :
  ((∃ thrown, getToken native app options w = (Abrupt thrown, w))
   ∨ ∃ name sender,
       getToken native app options w =
         (native (native_calls w) (N_getToken name sender),
          record_native_call (N_getToken name sender) w)
       ∧ forwarded_ok name (app_name app)
       ∧ forwarded_ok sender (app_messagingSenderId app))
  ∧ ((∃ thrown, deleteToken native app options w = (Abrupt thrown, w))
     ∨ ∃ name sender,
         deleteToken native app options w =
           (native (native_calls w) (N_deleteToken name sender),
            record_native_call (N_deleteToken name sender) w)
         ∧ forwarded_ok name (app_name app)
         ∧ forwarded_ok sender (app_messagingSenderId app)).
Proof.
  destruct (destructure_cases options w) as [[thrown Hopts] | (a & s & Hopts)].
  - destruct (token_destructure_fails _ _ _ Hopts) as [Hg Hd].
    split; left; eexists; eassumption.
  - destruct (not_undefined_nor_string a) eqn:Ha.
    + destruct (token_checks_fail _ _ _ _ Hopts) as [Hg Hd];
        [rewrite Ha; reflexivity|]. split; left; assumption.
    + destruct (not_undefined_nor_string s) eqn:Hs.
      * destruct (token_checks_fail _ _ _ _ Hopts) as [Hg Hd];
          [rewrite Ha, Hs; reflexivity|]. split; left; assumption.
      * rewrite (getToken_run _ _ _ _ _ _ Hopts Ha Hs),
                (deleteToken_run _ _ _ _ _ _ Hopts Ha Hs).
        split; right; eexists _, _;
          (split; [reflexivity|]); split; apply js_or_forwarded; assumption.
Qed.

(** X6. Registering a function that was not yet on the channel and then
    calling the returned disposer leaves every channel of the emitter
    with the listeners it had before the registration. *)
Theorem register_then_dispose_restores_channels
  (handler : JsValue) (f : nat) (w w1 : World) (d : Disposer) :
  onMessage handler w = (Normal d, w1) ∨ onTokenRefresh handler w = (Normal d, w1) →
  handler_callback handler = Some f →
  UserFn f ∉ listeners_of (disposer_channel d) (subscriptions w) →
  ∀ eventType,
    listeners_of eventType (subscriptions (dispose d w1).2)
      = listeners_of eventType (subscriptions w).
Proof.
  intros Hreg Hcb Hfresh eventType.
  rewrite onMessage_run, onTokenRefresh_run, Hcb in Hreg.
  rewrite dispose_run. cbn [snd subscriptions].
  destruct Hreg as [Hreg|Hreg]; inversion Hreg; subst; clear Hreg;
    cbn [disposer_channel disposer_listener subscriptions] in *.
  - destruct (decide ("onMessage" = eventType)) as [<- | Hne].
    + rewrite listeners_of_remove_same, listeners_of_add_same.
      rewrite bool_decide_eq_false_2 by exact Hfresh.
      apply filter_out_last. exact Hfresh.
    + rewrite listeners_of_remove_other, listeners_of_add_other by exact Hne.
      reflexivity.
  - destruct (decide ("onTokenRefresh" = eventType)) as [<- | Hne].
    + rewrite listeners_of_remove_same, listeners_of_add_same.
      rewrite bool_decide_eq_false_2 by exact Hfresh.
      apply filter_out_last. exact Hfresh.
    + rewrite listeners_of_remove_other, listeners_of_add_other by exact Hne.
      reflexivity.
Qed.

(** X7. Calling a disposer a second time does no harm: the emitter's
    channels are as the first call left them, and neither call reaches the
    native module or runs a callback. *)
Theorem disposing_twice_is_harmless (d : Disposer) (w : World) :
  (∀ eventType,
     listeners_of eventType (subscriptions (dispose d (dispose d w).2).2)
       = listeners_of eventType (subscriptions (dispose d w).2))
  ∧ (dispose d (dispose d w).2).1 = Normal tt
  ∧ native_calls (dispose d (dispose d w).2).2 = native_calls w
  ∧ invoked (dispose d (dispose d w).2).2 = invoked w.
Proof.
  rewrite !dispose_run. cbn [fst snd subscriptions native_calls invoked].
  split; [|auto]. intros eventType.
  destruct (decide (disposer_channel d = eventType)) as [<- | Hne].
  - rewrite !listeners_of_remove_same. apply filter_out_twice.
  - rewrite !listeners_of_remove_other by exact Hne. reflexivity.
Qed.

Lemma sendMessage_world (remoteMessage : JsValue) (w : World) :
  (sendMessage native build remoteMessage w).2 = w
  ∨ ∃ built, (sendMessage native build remoteMessage w).2
             = record_native_call (N_sendMessage built) w.
Proof.
  unfold sendMessage. destruct remoteMessage; cbn [instanceof_RemoteMessage negb];
    try (left; reflexivity).
  unfold try_catch. rewrite run_bind. unfold RemoteMessage_build, lift, call_native.
  destruct (build remoteMessage) as [built|error]; [|left; reflexivity].
  right. exists built.
  destruct (native (native_calls w) (N_sendMessage built)); reflexivity.
Qed.

Lemma token_call_world (options : JsValue) (w : World) :
  ((getToken native app options w).2 = w
   ∨ ∃ n, (getToken native app options w).2 = record_native_call n w)
  ∧ ((deleteToken native app options w).2 = w
     ∨ ∃ n, (deleteToken native app options w).2 = record_native_call n w).
Proof.
  destruct (destructure_cases options w) as [[thrown Hopts] | (a & s & Hopts)].
  - destruct (token_destructure_fails _ _ _ Hopts) as [-> ->]. auto.
  - destruct (not_undefined_nor_string a || not_undefined_nor_string s) eqn:Hbad.
    + destruct (token_checks_fail _ _ _ _ Hopts Hbad) as [[e ->] [e' ->]]. auto.
    + apply orb_false_iff in Hbad as [Ha Hs].
      rewrite (getToken_run _ _ _ _ _ _ Hopts Ha Hs),
              (deleteToken_run _ _ _ _ _ _ Hopts Ha Hs).
      split; right; eexists; reflexivity.
Qed.

Lemma delegating_call_world (c : Call) (w : World) :
  is_registration c = false →
  after_call native build ERROR_UNSUPPORTED_MODULE_METHOD app c w = w
  ∨ ∃ n, after_call native build ERROR_UNSUPPORTED_MODULE_METHOD app c w
         = record_native_call n w.
Proof.
  intros Hc.
  destruct c; try discriminate; cbn [after_call];
    try (right; eexists; reflexivity); try (left; reflexivity).
  - exact (proj1 (token_call_world options w)).
  - exact (proj2 (token_call_world options w)).
  - destruct (sendMessage_world remoteMessage w) as [-> | [built ->]].
    + left. reflexivity.
    + right. eexists. reflexivity.
Qed.

Lemma registration_call_world (c : Call) (w : World) :
  is_registration c = true →
  native_calls (after_call native build ERROR_UNSUPPORTED_MODULE_METHOD app c w)
    = native_calls w
  ∧ invoked (after_call native build ERROR_UNSUPPORTED_MODULE_METHOD app c w)
    = invoked w.
Proof.
  intros Hc. destruct c; try discriminate; cbn [after_call].
  - rewrite onMessage_run. destruct (handler_callback nextOrObserver); auto.
  - rewrite onTokenRefresh_run. destruct (handler_callback nextOrObserver); auto.
  - rewrite dispose_run. auto.
Qed.

(** X8. No method runs a listener's callback; callbacks run only when an
    event is delivered.  [onMessage], [onTokenRefresh] and the disposers
    never reach the native module, and every other method leaves the
    emitter and the log alone and makes at most one native call. *)
Theorem methods_keep_to_their_side (c : Call) (w : World) :
  let w' := after_call native build ERROR_UNSUPPORTED_MODULE_METHOD app c w in
  invoked w' = invoked w
  ∧ if is_registration c
    then native_calls w' = native_calls w
    else subscriptions w' = subscriptions w
         ∧ logged w' = logged w
         ∧ (native_calls w' = native_calls w
            ∨ ∃ n, native_calls w' = (native_calls w ++ [n])%list).
Proof.
  cbv zeta. destruct (is_registration c) eqn:Hc.
  - destruct (registration_call_world c w Hc) as [Hn Hi]. auto.
  - destruct (delegating_call_world c w Hc) as [-> | [n ->]].
    + auto.
    + cbn. repeat split. right. exists n. reflexivity.
Qed.

Lemma facade_ready_subscriptions (w w' : World) :
  subscriptions w' = subscriptions w → facade_ready w' = facade_ready w.
Proof.
  intros Hs. unfold facade_ready. rewrite Hs. reflexivity.
Qed.

Lemma channels_unused_spec (w : World) :
  channels_unused w = true →
  listeners_of "messaging_message_received" (subscriptions w) = []
  ∧ listeners_of "messaging_token_refreshed" (subscriptions w) = []
  ∧ listeners_of "onMessage" (subscriptions w) = []
  ∧ listeners_of "onTokenRefresh" (subscriptions w) = [].
Proof.
  unfold channels_unused. cbn [forallb].
  rewrite !andb_true_iff, !bool_decide_eq_true. tauto.
Qed.

Lemma constructor_ready_unused (Platform_OS : string) (w : World) :
  channels_unused w = true →
  facade_ready (constructor native Platform_OS w).2 = true.
Proof.
  intros Hunused. apply channels_unused_spec in Hunused as (Hm & Ht & Hom & Hot).
  rewrite constructor_run. cbv zeta.
  assert (Hready : facade_ready
    {| subscriptions :=
         add "messaging_token_refreshed" TokenRefreshedFanOut
           (add "messaging_message_received" MessageReceivedFanOut (subscriptions w));
       native_calls := native_calls w; invoked := invoked w; logged := logged w |}
    = true).
  { apply facade_ready_spec. cbn [subscriptions].
    rewrite !listeners_of_add_same, !listeners_of_add_other by discriminate.
    rewrite !listeners_of_add_same, !listeners_of_add_other by discriminate.
    rewrite Hm, Ht, Hom, Hot. repeat split; reflexivity. }
  case_bool_decide; cbn [snd]; [|exact Hready].
  unfold facade_ready in *. exact Hready.
Qed.

Lemma reachable_ready (w : World) :
  reachable native build ERROR_UNSUPPORTED_MODULE_METHOD app w →
  facade_ready w = true.
Proof.
  induction 1 as [os w Hunused | c w Hreach IH | fuel ev arg w w' Hreach IH Hemit].
  - apply constructor_ready_unused. exact Hunused.
  - destruct (is_registration c) eqn:Hc.
    + destruct c; try discriminate; cbn [after_call].
      * apply registration_ready. exact IH.
      * apply registration_ready. exact IH.
      * apply dispose_ready; [destruct d; auto | exact IH].
    + rewrite (facade_ready_subscriptions w); [exact IH|].
      destruct (delegating_call_world c w Hc) as [-> | [n ->]]; reflexivity.
  - rewrite (facade_ready_subscriptions w); [exact IH|].
    apply (emit_frame _ _ _ _ _ Hemit).
Qed.

(** X9. In every world a program can reach (construction on an emitter
    whose four channels were unused, then any calls and deliveries) each
    native channel holds the constructor's closure exactly once and
    nothing else, so an inbound event is re-emitted once and never
    twice, and the public channels hold functions of callers only. *)
Theorem reachable_worlds_are_ready (w : World) :
  reachable native build ERROR_UNSUPPORTED_MODULE_METHOD app w →
  listeners_of "messaging_message_received" (subscriptions w) = [MessageReceivedFanOut]
  ∧ listeners_of "messaging_token_refreshed" (subscriptions w) = [TokenRefreshedFanOut]
  ∧ (∀ l, l ∈ listeners_of "onMessage" (subscriptions w) → ∃ f, l = UserFn f)
  ∧ (∀ l, l ∈ listeners_of "onTokenRefresh" (subscriptions w) → ∃ f, l = UserFn f).
Proof.
  intros Hreach. apply reachable_ready in Hreach.
  apply facade_ready_spec in Hreach as (Hm & Ht & Hom & Hot).
  split; [exact Hm|]. split; [exact Ht|].
  split; intros l Hl.
  - rewrite forallb_forall in Hom. specialize (Hom l).
    destruct l as [f| |]; [eauto | |]; exfalso;
      (assert (false = true) by (apply Hom, list_elem_of_In, Hl)); discriminate.
  - rewrite forallb_forall in Hot. specialize (Hot l).
    destruct l as [f| |]; [eauto | |]; exfalso;
      (assert (false = true) by (apply Hot, list_elem_of_In, Hl)); discriminate.
Qed.

(** X10. In every reachable world the delivery of an inbound message or
    token event returns as soon as two stack frames are available, and it
    changes nothing but the record of callback calls: the emitter's
    registry, the trace of native calls and the log are as before. *)
Theorem delivery_returns_and_only_calls_back
  (payload : JsValue) (w : World) (fuel : nat) :
  reachable native build ERROR_UNSUPPORTED_MODULE_METHOD app w →
  (2 ≤ fuel)%nat →
  (∃ w', emit fuel "messaging_message_received" payload w = Some w'
         ∧ subscriptions w' = subscriptions w
         ∧ native_calls w' = native_calls w
         ∧ logged w' = logged w)
  ∧ (∃ w', emit fuel "messaging_token_refreshed" payload w = Some w'
           ∧ subscriptions w' = subscriptions w
           ∧ native_calls w' = native_calls w
           ∧ logged w' = logged w).
Proof.
  intros Hreach Hfuel. apply reachable_ready in Hreach.
  destruct fuel as [|[|fuel]]; [lia | lia |].
  pose proof Hreach as Hr. apply facade_ready_spec in Hr as (_ & _ & Hom & Hot).
  split.
  - rewrite emit_message_received, emit_public by assumption.
    eexists. split; [reflexivity|]. auto.
  - rewrite emit_token_refreshed, emit_public by assumption.
    eexists. split; [reflexivity|]. auto.
Qed.

(** X11. [isUndefined] holds of [undefined] alone and [isString] of the
    strings alone; [null] in particular is not taken for [undefined]. *)
Theorem type_predicates_exact (value : JsValue) :
  (isUndefined value = true ↔ value = JsUndefined)
  ∧ (isString value = true ↔ ∃ s, value = JsString s)
  ∧ isUndefined JsNull = false.
Proof.
  split; [|split; [|reflexivity]].
  - split; [destruct value; cbn; try discriminate; reflexivity | intros ->; reflexivity].
  - split; [destruct value; cbn; try discriminate; eauto | intros [s ->]; reflexivity].
Qed.

(** X12. A function newly registered through [onMessage] (or
    [onTokenRefresh]) is called by the next inbound event, after all the
    listeners that were on the channel before it. *)
Theorem new_listener_is_called_last
  (handler : JsValue) (f : nat) (payload : JsValue) (w : World) (fuel : nat) :
  facade_ready w = true →
  handler_callback handler = Some f →
  (2 ≤ fuel)%nat →
  (UserFn f ∉ listeners_of "onMessage" (subscriptions w) →
   ∃ w', emit fuel "messaging_message_received" payload (onMessage handler w).2 = Some w'
         ∧ invoked w' =
             (invoked w ++
               ((λ g, (g, RemoteMessage_new payload)) <$>
                  user_functions (listeners_of "onMessage" (subscriptions w)))
               ++ [(f, RemoteMessage_new payload)])%list)
  ∧ (UserFn f ∉ listeners_of "onTokenRefresh" (subscriptions w) →
     ∃ w', emit fuel "messaging_token_refreshed" payload (onTokenRefresh handler w).2 = Some w'
           ∧ invoked w' =
               (invoked w ++
                 ((λ g, (g, payload)) <$>
                    user_functions (listeners_of "onTokenRefresh" (subscriptions w)))
                 ++ [(f, payload)])%list).
Proof.
  intros Hready Hcb Hfuel.
  destruct fuel as [|[|fuel]]; [lia | lia |].
  destruct (registration_ready handler w Hready) as [Hrm Hrt].
  split; intros Hfresh.
  - pose proof Hrm as Hr. apply facade_ready_spec in Hr as (_ & _ & Hpub & _).
    rewrite emit_message_received, emit_public by assumption.
    eexists. split; [reflexivity|].
    rewrite onMessage_run, Hcb. cbn [snd invoked invoke_all subscriptions].
    rewrite listeners_of_add_same, bool_decide_eq_false_2 by exact Hfresh.
    unfold user_functions. rewrite omap_app, fmap_app. reflexivity.
  - pose proof Hrt as Hr. apply facade_ready_spec in Hr as (_ & _ & _ & Hpub).
    rewrite emit_token_refreshed, emit_public by assumption.
    eexists. split; [reflexivity|].
    rewrite onTokenRefresh_run, Hcb. cbn [snd invoked invoke_all subscriptions].
    rewrite listeners_of_add_same, bool_decide_eq_false_2 by exact Hfresh.
    unfold user_functions. rewrite omap_app, fmap_app. reflexivity.
Qed.

(** X13. A registration touches its own channel only: [onMessage] leaves
    the listeners of every other channel as they were, and so does
    [onTokenRefresh]; neither makes a native call. *)
Theorem registration_touches_its_channel_only
  (handler : JsValue) (w : World) (eventType : string) :
  ("onMessage" ≠ eventType →
   listeners_of eventType (subscriptions (onMessage handler w).2)
     = listeners_of eventType (subscriptions w))
  ∧ ("onTokenRefresh" ≠ eventType →
     listeners_of eventType (subscriptions (onTokenRefresh handler w).2)
       = listeners_of eventType (subscriptions w))
  ∧ native_calls (onMessage handler w).2 = native_calls w
  ∧ native_calls (onTokenRefresh handler w).2 = native_calls w.
Proof.
  rewrite onMessage_run, onTokenRefresh_run.
  destruct (handler_callback handler) as [f|]; cbn [snd subscriptions native_calls].
  - repeat split; intros Hne; apply listeners_of_add_other; exact Hne.
  - repeat split.
Qed.

End Further.

(** ** The further properties at concrete inputs *)

Lemma two_listeners_world_reachable :
  reachable promising_native strict_build demo_unsupported_message demo_app
    two_listeners_world.
Proof.
  exact (reach_call promising_native strict_build demo_unsupported_message demo_app
           (CallOnMessage (JsObject [("next", JsFunction 2)])) _
           (reach_call promising_native strict_build demo_unsupported_message demo_app
              (CallOnMessage (JsFunction 1)) _
              (reach_constructed promising_native strict_build
                 demo_unsupported_message demo_app "android" fresh_world eq_refl))).
Defined.

Lemma inbound_token_reaches_every_listener_witness :
  facade_ready token_listener_world = true
  ∧ ∃ w',
      emit 2 "messaging_token_refreshed" (JsString "token-1") token_listener_world
        = Some w'
      ∧ invoked w' = [(3, JsString "token-1")].
Proof.
  split; [reflexivity|].
  destruct (inbound_token_reaches_every_listener
              (JsString "token-1") token_listener_world 2 eq_refl (le_n 2))
    as (_ & w' & Hemit & Hinvoked & _).
  exists w'. split; [exact Hemit | exact Hinvoked].
Defined.

Lemma channels_are_separate_witness :
(UserFn 1 ∉ listeners_of "onTokenRefresh" (subscriptions two_listeners_world))
  ∧ ∃ w',
      emit 2 "messaging_token_refreshed" (JsString "token-1") two_listeners_world
        = Some w'
      ∧ ∀ arg, (1, arg) ∈ invoked w' → (1, arg) ∈ invoked two_listeners_world.
Proof.
  assert (Hnot : UserFn 1 ∉
            listeners_of "onTokenRefresh" (subscriptions two_listeners_world)).
  { not_listening. }
  split; [exact Hnot|].
  exact (proj2 (channels_are_separate (JsString "token-1") two_listeners_world 2 1
                  eq_refl (le_n 2)) Hnot).
Defined.

Lemma supplied_token_arguments_forwarded_witness :
  getToken promising_native demo_app
      (JsObject [("appName", JsString "secondary"); ("senderId", JsString "42")])
      constructed_world =
    (Normal (JsPromiseNative 0),
     record_native_call (N_getToken (JsString "secondary") (JsString "42"))
       constructed_world).
Proof.
  destruct (supplied_token_arguments_forwarded promising_native demo_app
              (JsObject [("appName", JsString "secondary"); ("senderId", JsString "42")])
              (JsString "secondary") (JsString "42") constructed_world
              eq_refl eq_refl eq_refl)
    as (name & sender & Hget & _ & Hname & Hsender).
  rewrite (Hname "secondary" eq_refl), (Hsender "42" eq_refl) in Hget
    by discriminate.
  exact Hget.
Defined.

Lemma register_then_dispose_restores_channels_witness :
  listeners_of "onMessage"
    (subscriptions
       (dispose (RemoveOnMessage (UserFn 1))
          (onMessage (JsFunction 1) constructed_world).2).2)
  = listeners_of "onMessage" (subscriptions constructed_world).
Proof.
  apply (register_then_dispose_restores_channels (JsFunction 1) 1 constructed_world
           (onMessage (JsFunction 1) constructed_world).2
           (RemoveOnMessage (UserFn 1)) (or_introl eq_refl) eq_refl).
  not_listening.
Defined.

Lemma reachable_worlds_are_ready_witness :
  listeners_of "messaging_message_received" (subscriptions two_listeners_world)
    = [MessageReceivedFanOut]
  ∧ listeners_of "messaging_token_refreshed" (subscriptions two_listeners_world)
    = [TokenRefreshedFanOut].
Proof.
  destruct (reachable_worlds_are_ready promising_native strict_build
              demo_unsupported_message demo_app two_listeners_world
              two_listeners_world_reachable) as (Hm & Ht & _).
  split; [exact Hm | exact Ht].
Defined.

Lemma delivery_returns_and_only_calls_back_witness :
  ∃ w',
    emit 2 "messaging_message_received" (JsObject [("messageId", JsString "m1")])
         two_listeners_world = Some w'
    ∧ subscriptions w' = subscriptions two_listeners_world
    ∧ native_calls w' = native_calls two_listeners_world
    ∧ logged w' = logged two_listeners_world.
Proof.
  exact (proj1 (delivery_returns_and_only_calls_back promising_native strict_build
                  demo_unsupported_message demo_app
                  (JsObject [("messageId", JsString "m1")]) two_listeners_world 2
                  two_listeners_world_reachable (le_n 2))).
Defined.

Lemma type_predicates_exact_witness :
  isString (JsString "news") = true ∧ JsUndefined = JsUndefined.
Proof.
  destruct (type_predicates_exact (JsString "news")) as (_ & Hs & _).
  split.
  - apply Hs. exists "news". reflexivity.
  - apply (proj1 (type_predicates_exact JsUndefined)). reflexivity.
Defined.

Lemma new_listener_is_called_last_witness :
  ∃ w',
    emit 2 "messaging_message_received" (JsString "hello")
         (onMessage (JsFunction 9) two_listeners_world).2 = Some w'
    ∧ invoked w' =
        [(1, JsRemoteMessage (JsString "hello"));
         (2, JsRemoteMessage (JsString "hello"));
         (9, JsRemoteMessage (JsString "hello"))].
Proof.
  apply (proj1 (new_listener_is_called_last (JsFunction 9) 9 (JsString "hello")
                  two_listeners_world 2 eq_refl eq_refl (le_n 2))).
  not_listening.
Defined.

Lemma registration_touches_its_channel_only_witness :
  listeners_of "onTokenRefresh"
    (subscriptions (onMessage (JsFunction 9) token_listener_world).2)
  = listeners_of "onTokenRefresh" (subscriptions token_listener_world).
Proof.
  apply (proj1 (registration_touches_its_channel_only
                  (JsFunction 9) token_listener_world "onTokenRefresh")).
  discriminate.
Defined.
